(** * FPBE notification service: a shallow embedding and its properties

    The development follows the Python sources of the notification service
    (models/notification.py, app.py, services/email_service.py,
    services/sms_service.py, services/push_notification.py and
    utils/templates.py).  Methods that mutate [self] become functions that
    return the new object next to their result; code that can raise returns
    an [outcome]; clock readings and the replies of the third-party
    collaborators (mail providers, Twilio, FCM, APNS, the template files)
    are explicit arguments.  Timestamps are rationals (seconds). *)

From Stdlib Require Import QArith Lqa ZArith List Ascii String Bool Lia.
From stdpp Require Import gmap strings list fin_maps.
Import ListNotations.

Local Open Scope string_scope.
Local Open Scope list_scope.

(** ** Exceptions and results *)

(** The exception classes the modelled code raises or catches.  Every class
    derives from Python's [Exception]. *)
Inductive exn : Type :=
| ValueError (msg : string)
| TypeError (msg : string)
| AttributeError (name : string)
| SecurityError (msg : string)
| EmailNotValidError (msg : string)
| TwilioRestException (code : Z) (msg : string)
| BadDeviceToken
| RetryError (last : exn)
| OtherError (msg : string).

(** [str(e)] *)
Fixpoint str_exn (e : exn) : string :=
  match e with
  | ValueError m | TypeError m | SecurityError m | EmailNotValidError m
  | OtherError m => m
  | AttributeError n => n
  | TwilioRestException _ m => m
  | BadDeviceToken => "BadDeviceToken"
  | RetryError e' => "RetryError[" ++ str_exn e' ++ "]"
  end.

Inductive outcome (A : Type) : Type :=
| Return (a : A)
| Raise (e : exn).
Arguments Return {A} a.
Arguments Raise {A} e.

Definition datetime : Type := Q.

(** ** models/notification.py *)
Module notification.

Inductive NotificationType : Type :=
| TRANSACTION_ALERT | SECURITY_ALERT | MINING_UPDATE | MARKETING
| SYSTEM_UPDATE.

Definition NotificationType_value (t : NotificationType) : string :=
  match t with
  | TRANSACTION_ALERT => "transaction_alert"
  | SECURITY_ALERT => "security_alert"
  | MINING_UPDATE => "mining_update"
  | MARKETING => "marketing"
  | SYSTEM_UPDATE => "system_update"
  end.

Inductive NotificationStatus : Type :=
| PENDING | SENT | DELIVERED | READ | FAILED.

Definition NotificationStatus_value (s : NotificationStatus) : string :=
  match s with
  | PENDING => "pending"
  | SENT => "sent"
  | DELIVERED => "delivered"
  | READ => "read"
  | FAILED => "failed"
  end.

(** The members of the enum, by attribute name: [NotificationStatus.NAME]
    raises [AttributeError] for a name the class does not define. *)
Definition NotificationStatus_getattr (name : string)
  : outcome NotificationStatus :=
  if String.eqb name "PENDING" then Return PENDING
  else if String.eqb name "SENT" then Return SENT
  else if String.eqb name "DELIVERED" then Return DELIVERED
  else if String.eqb name "READ" then Return READ
  else if String.eqb name "FAILED" then Return FAILED
  else Raise (AttributeError name).

Definition NotificationStatus_eqb (a b : NotificationStatus) : bool :=
  match a, b with
  | PENDING, PENDING | SENT, SENT | DELIVERED, DELIVERED | READ, READ
  | FAILED, FAILED => true
  | _, _ => false
  end.

(** The dict literal of [validate_transition], in source order. *)
Definition valid_transitions
  : list (NotificationStatus * list NotificationStatus) :=
  [ (PENDING, [SENT; FAILED]);
    (SENT, [DELIVERED; FAILED]);
    (DELIVERED, [READ; FAILED]);
    (READ, [FAILED]);
    (FAILED, []) ].

(** [d.get(key, default)] on that dict. *)
Fixpoint transitions_get
  (d : list (NotificationStatus * list NotificationStatus))
  (key : NotificationStatus) (default : list NotificationStatus)
  : list NotificationStatus :=
  match d with
  | [] => default
  | (k, v) :: d' =>
      if NotificationStatus_eqb k key then v else transitions_get d' key default
  end.

(** [x in xs] on a list of statuses. *)
Definition status_in (x : NotificationStatus) (xs : list NotificationStatus)
  : bool :=
  existsb (NotificationStatus_eqb x) xs.

Definition validate_transition (current new : NotificationStatus) : bool :=
  status_in new (transitions_get valid_transitions current []).

(** What the response of one push platform looks like
    ([response_data] of push_notification.py). *)
Record response_data : Type := mk_response {
  success : bool;
  results : list (string * bool * option string);
  error : option string
}.

(** The values the service stores under [delivery_info]. *)
Inductive info_value : Type :=
| InfoStr (s : string)
| InfoTime (t : Q)
| InfoStatuses (m : gmap string string)
| InfoResponse (r : response_data).

Record Notification : Type := mk_notification {
  id : string;
  user_id : string;
  type : NotificationType;
  title : string;
  message : string;
  status : NotificationStatus;
  metadata : gmap string string;
  created_at : datetime;
  sent_at : option datetime;
  delivered_at : option datetime;
  read_at : option datetime;
  error_message : option string;
  delivery_info : gmap string info_value
}.

Definition set_status (n : Notification) (s : NotificationStatus) :=
  mk_notification (id n) (user_id n) (type n) (title n) (message n) s
    (metadata n) (created_at n) (sent_at n) (delivered_at n) (read_at n)
    (error_message n) (delivery_info n).

Definition set_sent_at (n : Notification) (t : option datetime) :=
  mk_notification (id n) (user_id n) (type n) (title n) (message n) (status n)
    (metadata n) (created_at n) t (delivered_at n) (read_at n)
    (error_message n) (delivery_info n).

Definition set_delivered_at (n : Notification) (t : option datetime) :=
  mk_notification (id n) (user_id n) (type n) (title n) (message n) (status n)
    (metadata n) (created_at n) (sent_at n) t (read_at n)
    (error_message n) (delivery_info n).

Definition set_error_message (n : Notification) (e : option string) :=
  mk_notification (id n) (user_id n) (type n) (title n) (message n) (status n)
    (metadata n) (created_at n) (sent_at n) (delivered_at n) (read_at n)
    e (delivery_info n).

Definition set_delivery_info (n : Notification) (d : gmap string info_value) :=
  mk_notification (id n) (user_id n) (type n) (title n) (message n) (status n)
    (metadata n) (created_at n) (sent_at n) (delivered_at n) (read_at n)
    (error_message n) d.

(** The message of the [ValueError] of [update_status]; a member of a
    [str]-mixin enum is formatted as its value. *)
Definition invalid_transition_msg (current new : NotificationStatus) : string :=
  "Invalid status transition from " ++ NotificationStatus_value current
    ++ " to " ++ NotificationStatus_value new.

(** [dict.update]: the keys of [patch] overwrite, the others stay. *)
Definition dict_update {V} (d patch : gmap string V) : gmap string V :=
  patch ∪ d.

(** [Notification.update_status]; [now] is the reading of
    [datetime.utcnow()].  The result pairs what the call returns or
    raises with the notification object as the call leaves it. *)
Definition update_status (self : Notification) (new_status : NotificationStatus)
    (error_message : option string)
    (delivery_info_patch : option (gmap string info_value))
    (now : datetime) : outcome unit * Notification :=
  if negb (validate_transition (status self) new_status) then
    (Raise (ValueError (invalid_transition_msg (status self) new_status)), self)
  else
    let self1 := set_status self new_status in
    let self2 :=
      match new_status with
      | SENT => set_sent_at self1 (Some now)
      | DELIVERED => set_delivered_at self1 (Some now)
      | FAILED => set_error_message self1 error_message
      | _ => self1
      end in
    let self3 :=
      match delivery_info_patch with
      | Some patch =>
          if bool_decide (patch = ∅) then self2
          else set_delivery_info self2 (dict_update (delivery_info self2) patch)
      | None => self2
      end in
    (Return tt, self3).

(** [Notification.mark_as_read] *)
Definition mark_as_read (self : Notification) (now : datetime)
  : outcome unit * Notification :=
  if negb (validate_transition (status self) READ) then
    (Raise (ValueError ("Cannot mark as read from status "
                          ++ NotificationStatus_value (status self))), self)
  else
    let self1 := set_status self READ in
    let self2 :=
      mk_notification (id self1) (user_id self1) (type self1) (title self1)
        (message self1) (status self1) (metadata self1) (created_at self1)
        (sent_at self1) (delivered_at self1) (Some now) (error_message self1)
        (delivery_info self1) in
    (Return tt,
     set_delivery_info self2
       (<[ "read_timestamp" := InfoTime now ]> (delivery_info self2))).

Record NotificationPreference : Type := mk_preference {
  p_user_id : string;
  transaction_alerts : bool;
  security_alerts : bool;
  mining_updates : bool;
  marketing_notifications : bool;
  preferred_channel : string;
  channel_preferences : gmap string bool;
  type_channel_matrix : gmap string (gmap string bool)
}.

(** The field defaults of [NotificationPreference]; the matrix is keyed by
    the values of the notification types. *)
Definition NotificationPreference_default (user : string) : NotificationPreference :=
  mk_preference user true true true false "push"
    (<[ "push" := true ]> (<[ "email" := true ]> (<[ "sms" := false ]> ∅)))
    (<[ "transaction_alert" :=
          <[ "push" := true ]> (<[ "email" := true ]> (<[ "sms" := true ]> ∅)) ]>
       (<[ "security_alert" :=
             <[ "push" := true ]> (<[ "email" := true ]> (<[ "sms" := true ]> ∅)) ]>
          (<[ "mining_update" :=
                <[ "push" := true ]> (<[ "email" := false ]> (<[ "sms" := false ]> ∅)) ]>
             (<[ "marketing" :=
                   <[ "push" := false ]> (<[ "email" := true ]> (<[ "sms" := false ]> ∅)) ]>
                (<[ "system_update" :=
                      <[ "push" := true ]> (<[ "email" := true ]> (<[ "sms" := false ]> ∅)) ]>
                   ∅))))).

(** [getattr(self, name, default)] for the names [is_enabled_for_type]
    builds, a type value followed by [s]: the boolean fields of the model
    by name, and [default] for a name that is no attribute. *)
Definition getattr_flag (self : NotificationPreference) (name : string)
    (default : bool) : bool :=
  if String.eqb name "transaction_alerts" then transaction_alerts self
  else if String.eqb name "security_alerts" then security_alerts self
  else if String.eqb name "mining_updates" then mining_updates self
  else if String.eqb name "marketing_notifications" then marketing_notifications self
  else default.

(** [NotificationPreference.is_enabled_for_type] *)
Definition is_enabled_for_type (self : NotificationPreference)
    (notification_type : NotificationType) (channel : option string) : bool :=
  let type_enabled :=
    getattr_flag self (NotificationType_value notification_type ++ "s") true in
  if negb type_enabled then false
  else
    let channel :=
      match channel with
      | Some c => if String.eqb c "" then preferred_channel self else c
      | None => preferred_channel self
      end in
    if negb (default false (channel_preferences self !! channel)) then false
    else
      default false
        (default ∅ (type_channel_matrix self !! NotificationType_value notification_type)
           !! channel).

(** A series of status updates applied one after the other; [None] when
    one of them raises. *)
Fixpoint update_all (n : Notification)
    (steps : list (NotificationStatus * option string
                   * option (gmap string info_value) * datetime))
  : option Notification :=
  match steps with
  | [] => Some n
  | (s, e, d, now) :: rest =>
      match update_status n s e d now with
      | (Return _, n') => update_all n' rest
      | (Raise _, _) => None
      end
  end.

End notification.

(** ** app.py *)
Module app.
Import notification.

(** [determine_final_status]: the body is [pass], so a call returns
    Python's [None] whatever the per-channel map holds. *)
Definition determine_final_status (delivery_statuses : gmap string string)
  : option NotificationStatus :=
  None.

(** The status update of [send_notification] (the statements under
    "Update notification status").  When [final_status] is [None] the
    membership test of [validate_transition] is false, as [None] is in no
    list of the table, and [update_status] raises before it assigns. *)
Definition record_final_status (n : Notification)
    (delivery_statuses : gmap string string) (now : datetime)
  : outcome unit * Notification :=
  match determine_final_status delivery_statuses with
  | Some final_status =>
      update_status n final_status None
        (Some {[ "channel_statuses" := InfoStatuses delivery_statuses ]}) now
  | None =>
      (Raise (ValueError ("Invalid status transition from "
                            ++ NotificationStatus_value (status n) ++ " to None")),
       n)
  end.

End app.

(** ** services/email_service.py *)
Module email_service.
Import notification.

Definition RETRY_CONFIG_max_attempts : nat := 3.

(** [RATE_LIMIT_CONFIG], a dict of keyword arguments. *)
Definition RATE_LIMIT_CONFIG : list (string * Z) :=
  [ ("max_emails_per_hour", 20%Z); ("max_burst", 5%Z) ].

Record RateLimiter : Type := mk_limiter {
  max_per_hour : Z;
  max_burst : Z;
  window_size : Q;
  requests : list Q
}.

(** [RateLimiter.__init__(max_per_hour, max_burst)] *)
Definition RateLimiter_init (max_per_hour max_burst : Z) : RateLimiter :=
  mk_limiter max_per_hour max_burst 3600 [].

Fixpoint kwargs_get (kwargs : list (string * Z)) (name : string) : option Z :=
  match kwargs with
  | [] => None
  | (k, v) :: rest => if String.eqb k name then Some v else kwargs_get rest name
  end.

(** A call of [RateLimiter] with a dict of keyword arguments unpacked
    into it: Python binds the keywords to the parameters
    of [__init__] and raises [TypeError] for a keyword that names no
    parameter and for a parameter left without a value. *)
Definition RateLimiter_call (kwargs : list (string * Z)) : outcome RateLimiter :=
  match List.find (fun kv => negb (String.eqb (fst kv) "max_per_hour"
                                    || String.eqb (fst kv) "max_burst")) kwargs with
  | Some (k, _) =>
      Raise (TypeError ("__init__() got an unexpected keyword argument '" ++ k ++ "'"))
  | None =>
      match kwargs_get kwargs "max_per_hour", kwargs_get kwargs "max_burst" with
      | Some h, Some b => Return (RateLimiter_init h b)
      | _, _ => Raise (TypeError "__init__() missing required positional argument")
      end
  end.

(** [ts for ts in requests if now - ts <= bound] *)
Definition within (now bound : Q) (reqs : list Q) : list Q :=
  List.filter (fun ts => Qle_bool (now - ts) bound) reqs.

Definition with_requests (self : RateLimiter) (reqs : list Q) : RateLimiter :=
  mk_limiter (max_per_hour self) (max_burst self) (window_size self) reqs.

(** [RateLimiter.acquire]; [now] is [datetime.utcnow().timestamp()]. *)
Definition acquire (self : RateLimiter) (now : Q) : bool * RateLimiter :=
  let self1 := with_requests self (within now (window_size self) (requests self)) in
  if (max_per_hour self1 <=? Z.of_nat (length (requests self1)))%Z then
    (false, self1)
  else if (max_burst self1 <=?
             Z.of_nat (length (requests self1))
             - Z.of_nat (length (within now 60 (requests self1))))%Z then
    (false, self1)
  else
    (true, with_requests self1 (requests self1 ++ [now])).

(** A run of consecutive [acquire] calls at the given clock readings. *)
Fixpoint acquire_all (self : RateLimiter) (times : list Q)
  : list bool * RateLimiter :=
  match times with
  | [] => ([], self)
  | t :: rest =>
      let '(b, self1) := acquire self t in
      let '(bs, self2) := acquire_all self1 rest in
      (b :: bs, self2)
  end.

Record DeliveryStats : Type := mk_stats {
  sent : Z;
  failed : Z;
  last_success : option datetime;
  last_failure : option datetime;
  errors : gmap string Z
}.

Definition DeliveryStats_init : DeliveryStats := mk_stats 0 0 None None ∅.

Definition record_success (self : DeliveryStats) (now : datetime) : DeliveryStats :=
  mk_stats (sent self + 1) (failed self) (Some now) (last_failure self) (errors self).

Definition record_failure (self : DeliveryStats) (err : string) (now : datetime)
  : DeliveryStats :=
  mk_stats (sent self) (failed self + 1) (last_success self) (Some now)
    (<[ err := (default 0%Z (errors self !! err) + 1)%Z ]> (errors self)).

Record EmailService : Type := mk_email_service {
  _sendgrid_client : bool;   (* a client object or None *)
  _smtp_client : bool;
  _rate_limiters : gmap string RateLimiter;
  _delivery_stats : gmap string DeliveryStats
}.

Definition with_rate_limiters (self : EmailService) (m : gmap string RateLimiter) :=
  mk_email_service (_sendgrid_client self) (_smtp_client self) m (_delivery_stats self).

Definition with_delivery_stats (self : EmailService) (m : gmap string DeliveryStats) :=
  mk_email_service (_sendgrid_client self) (_smtp_client self) (_rate_limiters self) m.

(** What the collaborators answer during one invocation of [send_email]. *)
Record email_env : Type := mk_email_env {
  validate_email : string -> outcome string;   (* the normalised address *)
  utcnow : Q;
  render_template : outcome string;
  sendgrid_send : outcome Z;                   (* the HTTP status code *)
  smtp_send_message : outcome unit
}.

(** [_send_via_sendgrid]: every exception becomes [False]. *)
Definition _send_via_sendgrid (env : email_env) : bool :=
  match sendgrid_send env with
  | Return code => (code =? 200)%Z || (code =? 202)%Z
  | Raise _ => false
  end.

(** [_send_via_smtp]: every exception becomes [False]. *)
Definition _send_via_smtp (env : email_env) : bool :=
  match smtp_send_message env with
  | Return _ => true
  | Raise _ => false
  end.

(** The [except Exception] clause of [send_email]: count the failure when
    the recipient has statistics, then re-raise. *)
Definition reraise (self : EmailService) (to_email : string) (e : exn) (now : Q)
  : outcome bool * EmailService :=
  match _delivery_stats self !! to_email with
  | Some st =>
      (Raise e,
       with_delivery_stats self
         (<[ to_email := record_failure st (str_exn e) now ]> (_delivery_stats self)))
  | None => (Raise e, self)
  end.

Definition stats_record (self : EmailService) (to_email : string)
    (f : DeliveryStats -> DeliveryStats) : EmailService :=
  match _delivery_stats self !! to_email with
  | Some st => with_delivery_stats self (<[ to_email := f st ]> (_delivery_stats self))
  | None => self
  end.

(** [send_email] from the call of [acquire] on: [rl] is the limiter of
    the recipient. *)
Definition send_email_limited (self : EmailService) (to_email : string)
    (rl : RateLimiter) (env : email_env) : outcome bool * EmailService :=
  let '(allowed, rl') := acquire rl (utcnow env) in
  let self := with_rate_limiters self (<[ to_email := rl' ]> (_rate_limiters self)) in
  if negb allowed then (Return false, self)
  else
    (* Initialize delivery stats if needed *)
    let self :=
      match _delivery_stats self !! to_email with
      | Some _ => self
      | None => with_delivery_stats self
                  (<[ to_email := DeliveryStats_init ]> (_delivery_stats self))
      end in
    match render_template env with
    | Raise e => reraise self to_email e (utcnow env)
    | Return content =>
        if _sendgrid_client self && _send_via_sendgrid env then
          (Return true, stats_record self to_email
                          (fun st => record_success st (utcnow env)))
        else if _smtp_client self && _send_via_smtp env then
          (Return true, stats_record self to_email
                          (fun st => record_success st (utcnow env)))
        else
          (Return false,
           stats_record self to_email
             (fun st => record_failure st
                          "Both SendGrid and SMTP delivery failed" (utcnow env)))
    end.

(** The body of [send_email], one invocation (the [retry] decorator is
    [send_email] below). *)
Definition send_email_body (self : EmailService) (to_email : string)
    (env : email_env) : outcome bool * EmailService :=
  match validate_email env to_email with
  | Raise (EmailNotValidError _) => (Return false, self)
  | Raise e => reraise self to_email e (utcnow env)
  | Return to_email =>
      (* Check rate limits *)
      match _rate_limiters self !! to_email with
      | Some rl => send_email_limited self to_email rl env
      | None =>
          match RateLimiter_call RATE_LIMIT_CONFIG with
          | Return rl =>
              send_email_limited
                (with_rate_limiters self (<[ to_email := rl ]> (_rate_limiters self)))
                to_email rl env
          | Raise e => reraise self to_email e (utcnow env)
          end
      end
  end.

(** The [@retry(stop=stop_after_attempt(n), ...)] decorator: the body
    runs again after an attempt that raised, a returned value (also
    [False]) ends the loop, and [RetryError] is raised once [n] attempts
    have raised.  [envs k] is what the collaborators answer during
    attempt [k]. *)
Fixpoint retry (n : nat) (k : nat) (self : EmailService) (to_email : string)
    (envs : nat -> email_env) : outcome bool * EmailService :=
  match n with
  | O => (Raise (OtherError "no attempt"), self)
  | S n' =>
      match send_email_body self to_email (envs k) with
      | (Return b, self') => (Return b, self')
      | (Raise e, self') =>
          match n' with
          | O => (Raise (RetryError e), self')
          | S _ => retry n' (S k) self' to_email envs
          end
      end
  end.

Definition send_email (self : EmailService) (to_email : string)
    (envs : nat -> email_env) : outcome bool * EmailService :=
  retry RETRY_CONFIG_max_attempts 0 self to_email envs.

End email_service.

(** ** services/sms_service.py *)
Module sms_service.
Import notification.

Record tracking : Type := mk_tracking {
  count : Z;
  window_start : Q
}.

(** The service object.  [_rate_limits] maps a notification type (by its
    value) to [(max_count, window_seconds)]; [_rate_tracking] maps a
    phone number to its per-type counters. *)
Record SMSService : Type := mk_sms_service {
  _rate_limits : gmap string (Z * Q);
  _rate_tracking : gmap string (gmap string tracking)
}.

Definition with_rate_tracking (self : SMSService)
    (m : gmap string (gmap string tracking)) : SMSService :=
  mk_sms_service (_rate_limits self) m.

(** [_check_rate_limit]: a fixed window per (phone number, type).  The
    counter found in the table is updated in place; a counter made up
    for a type that has none yet is stored only when the call allows. *)
Definition _check_rate_limit (self : SMSService) (phone_number : string)
    (notification_type : string) (now : Q) : bool * SMSService :=
  match _rate_limits self !! notification_type with
  | None => (true, self)
  | Some (max_count, window_seconds) =>
      let per_phone :=
        match _rate_tracking self !! phone_number with
        | Some m => m
        | None => {[ notification_type := mk_tracking 0 now ]}
        end in
      let '(tr, stored) :=
        match per_phone !! notification_type with
        | Some tr => (tr, true)
        | None => (mk_tracking 0 now, false)
        end in
      let tr :=
        if Qle_bool (now - window_start tr) window_seconds then tr
        else mk_tracking 0 now in
      if (max_count <=? count tr)%Z then
        (false,
         with_rate_tracking self
           (<[ phone_number :=
                 if stored then <[ notification_type := tr ]> per_phone else per_phone ]>
              (_rate_tracking self)))
      else
        (true,
         with_rate_tracking self
           (<[ phone_number :=
                 <[ notification_type := mk_tracking (count tr + 1) (window_start tr) ]>
                   per_phone ]>
              (_rate_tracking self)))
  end.

(** The dict [send_sms] returns. *)
Record sms_result : Type := mk_sms_result {
  r_status : NotificationStatus;
  r_error : option string;
  r_error_code : option Z;
  r_message_id : option string;
  r_timestamp : Q;
  r_encrypted : option bool
}.

(** What the collaborators answer during one call of [send_sms]. *)
Record sms_env : Type := mk_sms_env {
  phonenumbers_parse : string -> outcome unit;
  is_valid_number : bool;
  utcnow : Q;
  encrypt : string -> string;
  create_async : string -> string -> outcome string   (* to, body: the sid *)
}.

(** The two [except] clauses of [send_sms], in source order. *)
Definition handle (e : exn) (now : Q) : sms_result :=
  match e with
  | TwilioRestException code _ =>
      mk_sms_result FAILED (Some (str_exn e)) (Some code) None now None
  | _ => mk_sms_result FAILED (Some (str_exn e)) None None now None
  end.

Definition send_sms (self : SMSService) (phone_number message : string)
    (notification_type : string) (encrypt_content : bool) (env : sms_env)
  : outcome sms_result * SMSService :=
  match phonenumbers_parse env phone_number with
  | Raise e => (Return (handle e (utcnow env)), self)
  | Return _ =>
      if negb (is_valid_number env) then
        (Return (handle (ValueError "Invalid phone number") (utcnow env)), self)
      else
        let '(allowed, self) :=
          _check_rate_limit self phone_number notification_type (utcnow env) in
        if negb allowed then
          match NotificationStatus_getattr "RATE_LIMITED" with
          | Return st =>
              (Return (mk_sms_result st (Some "Rate limit exceeded") None None
                         (utcnow env) None), self)
          | Raise e => (Return (handle e (utcnow env)), self)
          end
        else
          let content := if encrypt_content then encrypt env message else message in
          match create_async env phone_number content with
          | Return sid =>
              (Return (mk_sms_result SENT None None (Some sid) (utcnow env)
                         (Some encrypt_content)), self)
          | Raise e => (Return (handle e (utcnow env)), self)
          end
  end.

(** A series of [_check_rate_limit] calls for one recipient and type at the
    given clock readings. *)
Fixpoint check_all (self : SMSService) (phone_number notification_type : string)
    (times : list Q) : list bool * SMSService :=
  match times with
  | [] => ([], self)
  | t :: rest =>
      let '(b, self1) := _check_rate_limit self phone_number notification_type t in
      let '(bs, self2) := check_all self1 phone_number notification_type rest in
      (b :: bs, self2)
  end.

End sms_service.

(** ** services/push_notification.py *)
Module push_notification.
Import notification.

Definition _batch_size : nat := 500.
Definition _max_retries : nat := 3.

(** A device-token record, as [register_device] serialises it. *)
Record token_data : Type := mk_token {
  token : string;
  platform : string;
  registered_at : Q;
  last_used : Q;
  tstatus : string
}.

(** The part of the Redis store the service uses: the list
    [device_tokens:<user_id>] per user and the set
    [blacklisted_tokens:<platform>] per platform.  Key expiry is left
    out. *)
Record Redis : Type := mk_redis {
  device_tokens : gmap string (list token_data);
  blacklisted_tokens : gmap string (gset string)
}.

Definition lrange (r : Redis) (user : string) : list token_data :=
  default [] (device_tokens r !! user).

Definition smembers (r : Redis) (platform : string) : gset string :=
  default ∅ (blacklisted_tokens r !! platform).

Definition sismember (r : Redis) (platform tok : string) : bool :=
  bool_decide (tok ∈ smembers r platform).

Definition sadd (r : Redis) (platform tok : string) : Redis :=
  mk_redis (device_tokens r)
    (<[ platform := {[ tok ]} ∪ smembers r platform ]> (blacklisted_tokens r)).

(** [ltrim key -4 -1]: keep the last four elements. *)
Definition ltrim_last4 (r : Redis) (user : string) : Redis :=
  let l := lrange r user in
  mk_redis (<[ user := drop (length l - 4) l ]> (device_tokens r))
    (blacklisted_tokens r).

Definition lpush (r : Redis) (user : string) (d : token_data) : Redis :=
  mk_redis (<[ user := d :: lrange r user ]> (device_tokens r))
    (blacklisted_tokens r).

(** The store together with the log of the calls made to the two
    providers, oldest first. *)
Record world : Type := mk_world {
  redis : Redis;
  apns_calls : list string;
  fcm_calls : list (list string)
}.

(** The providers: what the [k]-th call (counting from 0) answers.  An
    FCM batch response holds one result per token of the batch, given
    here by position.  [apns_has_BadDeviceToken] tells whether the
    installed [aioapns] has the attribute [exceptions.BadDeviceToken]
    that the first [except] clause of [_send_apns] names: the clause is
    evaluated whenever a send raises, and where the attribute is missing
    (as in the pinned aioapns 2.1.0) that evaluation raises
    [AttributeError] out of both loops. *)
Record providers : Type := mk_providers {
  apns_reply : nat -> string -> outcome unit;
  fcm_reply : nat -> list string -> outcome (nat -> bool);
  apns_has_BadDeviceToken : bool
}.

Definition register_device (w : world) (user_id device_token platform : string)
    (now : Q) : bool * world :=
  if negb (String.eqb platform "ios" || String.eqb platform "android") then
    (false, w)                      (* ValueError, caught below *)
  else if sismember (redis w) platform device_token then
    (false, w)
  else
    let r := redis w in
    let r := if (5 <=? length (lrange r user_id))%nat then ltrim_last4 r user_id else r in
    let r := lpush r user_id (mk_token device_token platform now now "active") in
    (true, mk_world r (apns_calls w) (fcm_calls w)).

Section senders.
Variable P : providers.

(** The retry loop of [_send_fcm]; [attempt] runs over
    [range(_max_retries)], [fuel] is what is left of the range. *)
Fixpoint fcm_loop (fuel attempt : nat) (tokens : list string) (w : world)
  : response_data * world :=
  match fuel with
  | O => (mk_response false [] None, w)
  | S fuel' =>
      let batch := take _batch_size tokens in
      let reply := fcm_reply P (length (fcm_calls w)) batch in
      let w := mk_world (redis w) (apns_calls w) (fcm_calls w ++ [batch]) in
      match reply with
      | Return responses =>
          let res := imap (fun idx tok => (tok, responses idx, None)) batch in
          let r :=
            foldl (fun r (x : string * bool * option string) =>
                     if snd (fst x) then r else sadd r "android" (fst (fst x)))
              (redis w) res in
          (mk_response (existsb (fun x => snd (fst x)) res) res None,
           mk_world r (apns_calls w) (fcm_calls w))
      | Raise e =>
          if (attempt =? _max_retries - 1)%nat then
            (mk_response false [] (Some (str_exn e)), w)
          else fcm_loop fuel' (S attempt) tokens w
      end
  end.

Definition _send_fcm (tokens : list string) (w : world) : response_data * world :=
  fcm_loop _max_retries 0 tokens w.

(** The inner loop of [_send_apns] for one token: the entry appended to
    [results], if any, or the exception that leaves the loop.  A send
    that raises reaches the clause [except aioapns.exceptions.BadDeviceToken]
    first, whatever it raised. *)
Fixpoint apns_loop (fuel attempt : nat) (tok : string) (w : world)
  : outcome (option (string * bool * option string)) * world :=
  match fuel with
  | O => (Return None, w)
  | S fuel' =>
      let reply := apns_reply P (length (apns_calls w)) tok in
      let w := mk_world (redis w) (apns_calls w ++ [tok]) (fcm_calls w) in
      match reply with
      | Return _ => (Return (Some (tok, true, None)), w)
      | Raise e =>
          if negb (apns_has_BadDeviceToken P) then
            (Raise (AttributeError
               "module 'aioapns.exceptions' has no attribute 'BadDeviceToken'"), w)
          else
            match e with
            | BadDeviceToken =>
                (Return (Some (tok, false, Some "BadDeviceToken")),
                 mk_world (sadd (redis w) "ios" tok) (apns_calls w) (fcm_calls w))
            | _ =>
                if (attempt =? _max_retries - 1)%nat then
                  (Return (Some (tok, false, Some (str_exn e))), w)
                else apns_loop fuel' (S attempt) tok w
            end
      end
  end.

(** The outer loop of [_send_apns]; an exception of the inner loop
    leaves it too. *)
Fixpoint apns_tokens (tokens : list string)
    (results : list (string * bool * option string)) (w : world)
  : outcome (list (string * bool * option string)) * world :=
  match tokens with
  | [] => (Return results, w)
  | tok :: rest =>
      match apns_loop _max_retries 0 tok w with
      | (Return entry, w) => apns_tokens rest (results ++ option_list entry) w
      | (Raise e, w) => (Raise e, w)
      end
  end.

(** [response_data] starts as success [False] with no results; the two
    assignments after the loops are skipped when an exception reaches the
    outer [except Exception], which stores [str(e)] as the error. *)
Definition _send_apns (tokens : list string) (w : world) : response_data * world :=
  match apns_tokens tokens [] w with
  | (Return results, w) =>
      (mk_response (existsb (fun x => snd (fst x)) results) results None, w)
  | (Raise e, w) => (mk_response false [] (Some (str_exn e)), w)
  end.

Definition active_tokens (platform_is_android : bool) (tokens_data : list token_data)
  : list string :=
  token <$>
    List.filter (fun d => String.eqb (tstatus d) "active"
                          && Bool.eqb (String.eqb (platform d) "android")
                               platform_is_android) tokens_data.

(** The [except Exception] clause of [send_notification]. *)
Definition on_exception (n : Notification) (e : exn) (now : Q) (w : world)
  : outcome bool * Notification * world :=
  match update_status n FAILED (Some (str_exn e)) None now with
  | (Return _, n') => (Return false, n', w)
  | (Raise e', n') => (Raise e', n', w)
  end.

Definition send_notification (n : Notification) (now : Q) (w : world)
  : outcome bool * Notification * world :=
  let tokens_data := lrange (redis w) (user_id n) in
  match tokens_data with
  | [] =>
      match update_status n FAILED (Some "No registered devices") None now with
      | (Return _, n') => (Return false, n', w)
      | (Raise e, n') => on_exception n' e now w
      end
  | _ =>
      let android_tokens := active_tokens true tokens_data in
      let ios_tokens := active_tokens false tokens_data in
      let success := true in
      let delivery_info : gmap string info_value := ∅ in
      let '(success, delivery_info, w) :=
        match android_tokens with
        | [] => (success, delivery_info, w)
        | _ =>
            let '(fcm_response, w) := _send_fcm android_tokens w in
            (success && notification.success fcm_response,
             <[ "fcm" := InfoResponse fcm_response ]> delivery_info, w)
        end in
      let '(success, delivery_info, w) :=
        match ios_tokens with
        | [] => (success, delivery_info, w)
        | _ =>
            let '(apns_response, w) := _send_apns ios_tokens w in
            (success && notification.success apns_response,
             <[ "apns" := InfoResponse apns_response ]> delivery_info, w)
        end in
      let '(r, n') :=
        if success then update_status n SENT None (Some delivery_info) now
        else update_status n FAILED (Some "Partial or complete delivery failure")
               (Some delivery_info) now in
      match r with
      | Return _ => (Return success, n', w)
      | Raise e => on_exception n' e now w
      end
  end.

End senders.

End push_notification.

(** ** utils/templates.py *)
Module templates.
Import notification.

Definition SUPPORTED_LOCALES : list string := ["en"; "ar"; "fr"].

(** Context values, as far as sanitising and rendering tell them apart. *)
Inductive value : Type :=
| VNone
| VStr (s : string)
| VCallable (name : string).

Definition callable (v : value) : bool :=
  match v with VCallable _ => true | _ => false end.

Definition str_value (v : value) : string :=
  match v with
  | VNone => "None"
  | VStr s => s
  | VCallable name => "<function " ++ name ++ ">"
  end.

Definition truth_value (v : value) : bool :=
  match v with
  | VNone => false
  | VStr s => negb (String.eqb s "")
  | VCallable _ => true
  end.

(** The methods a template calls on the object that stands for a missing
    variable: [str()] when it is printed, [bool()] when it is tested. *)
Record undefined_class : Type := mk_undefined {
  u_str : string -> outcome string;
  u_bool : string -> outcome bool
}.

(** The base class [jinja2.Undefined] of the Jinja2 library: it prints as
    the empty string and is false in a test. *)
Definition Undefined : undefined_class :=
  mk_undefined (fun _ => Return "") (fun _ => Return false).

(** [class StrictUndefined(Undefined)]: the subclass overrides [__str__]
    and inherits everything else. *)
Definition StrictUndefined : undefined_class :=
  mk_undefined
    (fun name => Raise (SecurityError ("Undefined template variable: " ++ name)))
    (u_bool Undefined).

(** A parsed template: literal text, [{{ name }}] and
    [{% if name %} body {% endif %}], each followed by the rest. *)
Inductive template : Type :=
| TEnd
| TText (s : string) (rest : template)
| TPrint (name : string) (rest : template)
| TIf (name : string) (body : template) (rest : template).

Fixpoint references (t : template) (name : string) : bool :=
  match t with
  | TEnd => false
  | TText _ rest => references rest name
  | TPrint x rest => String.eqb x name || references rest name
  | TIf x body rest =>
      String.eqb x name || references body name || references rest name
  end.

Definition bind {A B} (x : outcome A) (f : A -> outcome B) : outcome B :=
  match x with
  | Return a => f a
  | Raise e => Raise e
  end.

(** [template.render] on a context, in an environment whose [undefined]
    is [cls]. *)
Fixpoint render (cls : undefined_class) (context : gmap string value)
    (t : template) : outcome string :=
  match t with
  | TEnd => Return ""
  | TText s rest => bind (render cls context rest) (fun r => Return (s ++ r)%string)
  | TPrint name rest =>
      bind (match context !! name with
            | Some v => Return (str_value v)
            | None => u_str cls name
            end)
        (fun s => bind (render cls context rest) (fun r => Return (s ++ r)%string))
  | TIf name body rest =>
      bind (match context !! name with
            | Some v => Return (truth_value v)
            | None => u_bool cls name
            end)
        (fun b =>
           if b then
             bind (render cls context body)
               (fun s => bind (render cls context rest) (fun r => Return (s ++ r)%string))
           else render cls context rest)
  end.

Definition startswith_underscore (k : string) : bool :=
  match k with
  | String c _ => Ascii.eqb c "_"%char
  | EmptyString => false
  end.

Definition ensure_key (key : string) (m : gmap string value) : gmap string value :=
  match m !! key with
  | Some _ => m
  | None => <[ key := VNone ]> m
  end.

Definition _sanitize_context (context : gmap string value) : gmap string value :=
  let sanitized :=
    filter (fun kv : string * value =>
              negb (startswith_underscore (fst kv)) && negb (callable (snd kv)) = true)
      context in
  ensure_key "timestamp" (ensure_key "user_id" sanitized).

(** The manager: the class the environment uses for missing variables,
    the template files under [TEMPLATE_DIR] (by relative path, parsed)
    and the cache. *)
Record NotificationTemplateManager : Type := mk_manager {
  _env_undefined : undefined_class;
  template_files : gmap string template;
  _template_cache : gmap string template
}.

Definition get_template_path (self : NotificationTemplateManager)
    (notification_type : NotificationType) (channel : string)
    (locale : option string) : outcome string :=
  if negb (String.eqb channel "email" || String.eqb channel "sms"
           || String.eqb channel "push") then
    Raise (ValueError ("Invalid channel: " ++ channel))
  else
    let effective_locale :=
      match locale with
      | Some l => if String.eqb l "" then "en" else l
      | None => "en"
      end in
    let effective_locale :=
      if existsb (String.eqb effective_locale) SUPPORTED_LOCALES
      then effective_locale else "en" in
    let template_path :=
      (effective_locale ++ "/" ++ NotificationType_value notification_type
         ++ "/" ++ channel ++ ".j2")%string in
    match template_files self !! template_path with
    | Some _ => Return template_path
    | None => Raise (ValueError ("Template not found: " ++ template_path))
    end.

Definition render_template (self : NotificationTemplateManager)
    (notification_type : NotificationType) (channel : string)
    (context : gmap string value) (locale : option string)
  : outcome string * NotificationTemplateManager :=
  match get_template_path self notification_type channel locale with
  | Raise e => (Raise e, self)
  | Return template_path =>
      let cache_key :=
        (template_path ++ ":" ++
           match locale with
           | Some l => if String.eqb l "" then "default" else l
           | None => "default"
           end)%string in
      let found :=
        match _template_cache self !! cache_key with
        | Some t => Return (t, self)
        | None =>
            match template_files self !! template_path with
            | Some t =>
                Return (t, mk_manager (_env_undefined self) (template_files self)
                             (<[ cache_key := t ]> (_template_cache self)))
            | None => Raise (OtherError ("TemplateNotFound: " ++ template_path))
            end
        end in
      match found with
      | Raise e => (Raise e, self)
      | Return (t, self) =>
          (render (_env_undefined self) (_sanitize_context context) t, self)
      end
  end.

(** A text as the filters see it: a Python [str] is a sequence of code
    points, and [len] and slicing count code points. *)
Definition text : Type := list N.

(** The literal ['...'] *)
Definition dots : text := [46; 46; 46]%N.

(** [value[:stop]]: a negative [stop] counts from the end of the text,
    and the slice is empty when that reaches before its start. *)
Definition slice_to (value : text) (stop : Z) : text :=
  if (stop <? 0)%Z then take (Z.to_nat (Z.of_nat (Datatypes.length value) + stop)) value
  else take (Z.to_nat stop) value.

(** The filter [secure_truncate] of [_register_default_filters]: the
    conditional expression takes the whole sum as its first branch. *)
Definition secure_truncate (value : text) (length : Z) : text :=
  if (length <? Z.of_nat (Datatypes.length value))%Z
  then (slice_to value length ++ dots)%list
  else value.

Section filters.
Variable filter : Type.
(** [str.isidentifier], a built-in of the language. *)
Variable isidentifier : string -> bool.

(** [register_filter] on the filter table of the environment. *)
Definition register_filter (filters : gmap string filter) (name : string)
    (filter_func : filter) : outcome unit * gmap string filter :=
  if negb (isidentifier name) then
    (Raise (ValueError ("Invalid filter name: " ++ name)), filters)
  else
    match filters !! name with
    | Some _ => (Raise (ValueError ("Filter already exists: " ++ name)), filters)
    | None => (Return tt, <[ name := filter_func ]> filters)
    end.

End filters.

End templates.

(** ** The statements of the specification, for comparison *)
Module spec.
Import notification email_service.

(** The transition table of the specification: pending to sent or
    failed, sent to delivered or failed, delivered to read or failed,
    read to failed, and nothing out of failed. *)
Inductive listed : NotificationStatus -> NotificationStatus -> Prop :=
| pending_sent : listed PENDING SENT
| pending_failed : listed PENDING FAILED
| sent_delivered : listed SENT DELIVERED
| sent_failed : listed SENT FAILED
| delivered_read : listed DELIVERED READ
| delivered_failed : listed DELIVERED FAILED
| read_failed : listed READ FAILED.

(** The error the specification calls InvalidStateTransition is the
    [ValueError] of [update_status]. *)
Definition InvalidStateTransition (current new : NotificationStatus) : exn :=
  ValueError (invalid_transition_msg current new).

(** The burst count of the specification: the recorded timestamps, after
    pruning, that lie within the last [burst_window_seconds]. *)
Definition burst_count (self : RateLimiter) (now burst_window_seconds : Q) : nat :=
  length (within now burst_window_seconds
            (within now (window_size self) (requests self))).

(** The decision of the specification: deny when the pruned count
    reaches [max_per_window], else deny when the burst count reaches
    [max_burst], else allow. *)
Definition acquire_decision (self : RateLimiter) (now : Q) : bool :=
  if (max_per_hour self
        <=? Z.of_nat (length (within now (window_size self) (requests self))))%Z
  then false
  else negb (max_burst self <=? Z.of_nat (burst_count self now 60))%Z.


Import push_notification.

(** The [k]-th call to APNS was for [tok] and the provider answered that
    the token is invalid. *)
Definition reported_invalid (P : providers) (calls : list string) (tok : string)
  : Prop :=
  exists k, calls !! k = Some tok /\ apns_reply P k tok = Raise BadDeviceToken.

(** The statement of the specification on invalid tokens, for two
    notifications sent one after the other: a token reported invalid by
    the end of the first send is in no call of the second. *)
Definition invalid_token_never_resent (P : providers) (n1 n2 : Notification)
    (now : Q) (w0 : world) : Prop :=
  let w1 := snd (send_notification P n1 now w0) in
  let w2 := snd (send_notification P n2 now w1) in
  forall tok,
    reported_invalid P (apns_calls w1) tok ->
    ~ In tok (drop (length (apns_calls w1)) (apns_calls w2)).

(** Every token reported invalid so far is in the iOS blacklist. *)
Definition blacklist_covers (P : providers) (w : world) : Prop :=
  forall tok,
    reported_invalid P (apns_calls w) tok -> tok ∈ smembers (redis w) "ios".

(** The blacklist of [r'] holds what the blacklist of [r] holds. *)
Definition blacklist_le (r r' : Redis) : Prop :=
  forall p, smembers r p ⊆ smembers r' p.

(** The per-token results a push send leaves in [delivery_info]. *)
Definition token_results (n : Notification) : list (string * bool * option string) :=
  (match delivery_info n !! "fcm" with
   | Some (InfoResponse r) => results r
   | _ => []
   end ++
   match delivery_info n !! "apns" with
   | Some (InfoResponse r) => results r
   | _ => []
   end)%list.



Import templates.

(** The statement of the specification on rendering: a template that
    references a variable absent from the sanitised context does not
    render, it raises. *)
Definition rendering_is_strict (cls : undefined_class) (t : template)
    (context : gmap string value) : Prop :=
  forall name,
    references t name = true ->
    _sanitize_context context !! name = None ->
    exists e, render cls (_sanitize_context context) t = Raise e.

(** How far a status is along the life of a notification. *)
Definition status_rank (s : NotificationStatus) : nat :=
  match s with
  | PENDING => 0
  | SENT => 1
  | DELIVERED => 2
  | READ => 3
  | FAILED => 4
  end.

(** The timestamps a status implies: a notification that is sent,
    delivered or read has [sent_at], and one that is delivered or read has
    [delivered_at]. *)
Definition timestamps_consistent (n : Notification) : Prop :=
  (status n = SENT \/ status n = DELIVERED \/ status n = READ -> is_Some (sent_at n)) /\
  (status n = DELIVERED \/ status n = READ -> is_Some (delivered_at n)).

(** The sum of the error histogram of the delivery statistics. *)
Definition errors_total (s : DeliveryStats) : Z :=
  map_fold (fun _ v acc => (v + acc)%Z) 0%Z (errors s).

Import sms_service.

(** The counter the SMS sender keeps for a recipient and a type, if any. *)
Definition sms_tracking (svc : SMSService) (phone_number notification_type : string)
  : option tracking :=
  _rate_tracking svc !! phone_number ≫= (fun m => m !! notification_type).

End spec.

(** ** Concrete inputs used in the examples below *)
Module inputs.
Import notification email_service.

(** A recipient the service has not seen yet, and collaborators that all
    work: the address is valid, the template renders and SendGrid
    accepts the message. *)
Definition fresh_service : EmailService := mk_email_service true true ∅ ∅.

Definition working_env : email_env :=
  mk_email_env (fun a => Return a) 100%Q (Return "<p>hello</p>") (Return 202%Z)
    (Return tt).








Import push_notification.

Definition pending (nid user : string) : Notification :=
  mk_notification nid user TRANSACTION_ALERT "Payment" "You paid 5 Pi" PENDING
    ∅ 0%Q None None None None ∅.

(** One user with one active iOS device, and an APNS that rejects every
    token as invalid. *)
Definition one_ios_device : world :=
  mk_world
    (mk_redis {[ "alice" := [mk_token "tok-1" "ios" 0%Q 0%Q "active"] ]} ∅) [] [].

Definition apns_rejects : providers :=
  mk_providers (fun _ _ => Raise BadDeviceToken) (fun _ _ => Return (fun _ => true)) true.

(** An APNS client that fails on every send, with an [aioapns] that has
    no [BadDeviceToken] class, as the pinned version. *)
Definition apns_without_class : providers :=
  mk_providers (fun _ _ => Raise (OtherError "connection reset"))
    (fun _ _ => Return (fun _ => true)) false.

(** One user with an Android and an iOS device; FCM fails the Android
    token and APNS accepts the iOS token. *)
Definition two_platforms : world :=
  mk_world
    (mk_redis {[ "alice" := [mk_token "tok-a" "android" 0%Q 0%Q "active";
                             mk_token "tok-i" "ios" 0%Q 0%Q "active"] ]} ∅) [] [].

Definition fcm_fails_apns_accepts : providers :=
  mk_providers (fun _ _ => Return tt) (fun _ _ => Return (fun _ => false)) true.

Import templates.

(** A marketing mail that greets the user and adds a line when a promo
    code is given:
    [Hello {{ user_name }}{% if promo_code %}, an offer waits for you{% endif %}.] *)
Definition promo_template : template :=
  TText "Hello "
    (TPrint "user_name"
       (TIf "promo_code" (TText ", an offer waits for you" TEnd)
          (TText "." TEnd))).

Definition promo_manager : NotificationTemplateManager :=
  mk_manager StrictUndefined {[ "en/marketing/email.j2" := promo_template ]} ∅.

Definition promo_context : gmap string value := {[ "user_name" := VStr "Mona" ]}.

End inputs.

Import notification.

(** * Properties *)

(** ** The notification state machine *)

Example validate_transition_pending_sent : validate_transition PENDING SENT = true.
Proof. reflexivity. Qed.

Example validate_transition_pending_delivered :
  validate_transition PENDING DELIVERED = false.
Proof. reflexivity. Qed.

(** C1. [validate_transition current new] is true exactly for the pairs of
    the table: pending to sent or failed, sent to delivered or failed,
    delivered to read or failed, read to failed; failed has no outgoing
    transition. *)
Theorem validate_transition_table (current new : NotificationStatus) :
  validate_transition current new = true <-> spec.listed current new.
Proof.
  split.
  - destruct current, new; cbn; intros H; try discriminate H; constructor.
  - intros H; destruct H; reflexivity.
Qed.

Lemma failed_is_terminal (new : NotificationStatus) :
  validate_transition FAILED new = false.
Proof. destruct new; reflexivity. Qed.

Lemma update_status_invalid (n : Notification) (s : NotificationStatus)
    (e : option string) (d : option (gmap string info_value)) (now : datetime) :
  validate_transition (status n) s = false ->
  update_status n s e d now = (Raise (spec.InvalidStateTransition (status n) s), n).
Proof. intros H. unfold update_status. rewrite H. reflexivity. Qed.

Lemma update_status_valid (n : Notification) (s : NotificationStatus)
    (e : option string) (d : option (gmap string info_value)) (now : datetime) :
  validate_transition (status n) s = true ->
  fst (update_status n s e d now) = Return tt /\
  status (snd (update_status n s e d now)) = s.
Proof.
  intros H. unfold update_status. rewrite H. cbn [negb].
  destruct s, d as [patch|]; cbn; try (destruct (bool_decide (patch = ∅))); auto.
Qed.

(** C2. [update_status] applies the new status only when the transition
    from the current status is valid (it then returns normally and the
    status is the new one); otherwise it raises the invalid-transition
    error and the notification, with its status, [sent_at],
    [delivered_at], [read_at], [error_message] and [delivery_info], is
    what it was. *)
Theorem update_status_guarded (n : Notification) (s : NotificationStatus)
    (e : option string) (d : option (gmap string info_value)) (now : datetime) :
  let '(r, n') := update_status n s e d now in
  if validate_transition (status n) s
  then r = Return tt /\ status n' = s
  else r = Raise (spec.InvalidStateTransition (status n) s) /\ n' = n /\
       status n' = status n /\ sent_at n' = sent_at n /\
       delivered_at n' = delivered_at n /\ read_at n' = read_at n /\
       error_message n' = error_message n /\ delivery_info n' = delivery_info n.
Proof.
  destruct (validate_transition (status n) s) eqn:Hv.
  - pose proof (update_status_valid n s e d now Hv) as [H1 H2].
    destruct (update_status n s e d now) as [r n']. auto.
  - rewrite (update_status_invalid n s e d now Hv). repeat split.
Qed.

(** ** The orchestrator *)

(** C3. [determine_final_status] has no body: for a map in which every
    channel succeeded (as for every other map) it returns no status, and
    the status update that follows raises and leaves the notification as
    it was, instead of recording sent. *)
Theorem determine_final_status_unimplemented :
  let outcomes : gmap string string := {[ "push" := "sent"; "email" := "sent" ]} in
  app.determine_final_status outcomes = None /\
  (forall ds, app.determine_final_status ds = None) /\
  (forall n now,
      exists msg, app.record_final_status n outcomes now = (Raise (ValueError msg), n)).
Proof.
  cbn. repeat split. intros n now. eexists. reflexivity.
Qed.

(** ** The rate limiter *)

Section rate_limiter.
Import email_service.
Local Open Scope Q_scope.

Lemma within_app (now bound : Q) (l1 l2 : list Q) :
  within now bound (l1 ++ l2) = (within now bound l1 ++ within now bound l2)%list.
Proof. unfold within. apply List.filter_app. Qed.

Lemma within_all (now bound : Q) (l : list Q) :
  (forall ts, In ts l -> now - ts <= bound) -> within now bound l = l.
Proof.
  induction l as [|x l IH]; intros H; [reflexivity|].
  cbn. assert (Hx : Qle_bool (now - x) bound = true).
  { apply Qle_bool_iff, H. now left. }
  rewrite Hx. f_equal. apply IH. intros ts Hts. apply H. now right.
Qed.

Lemma within_none (now bound : Q) (l : list Q) :
  (forall ts, In ts l -> bound < now - ts) -> within now bound l = [].
Proof.
  induction l as [|x l IH]; intros H; [reflexivity|].
  cbn. destruct (Qle_bool (now - x) bound) eqn:Hx.
  - apply Qle_bool_iff in Hx. specialize (H x (or_introl eq_refl)). lra.
  - apply IH. intros ts Hts. apply H. now right.
Qed.

Lemma within_length (now bound : Q) (l : list Q) :
  (length (within now bound l) <= length l)%nat.
Proof. unfold within. apply List.filter_length_le. Qed.

Lemma within_In (now bound : Q) (l : list Q) (ts : Q) :
  In ts (within now bound l) -> In ts l /\ now - ts <= bound.
Proof.
  unfold within. intros H. apply List.filter_In in H as [H1 H2].
  split; [exact H1 | now apply Qle_bool_iff].
Qed.

Lemma acquire_unfold (rl : RateLimiter) (now : Q) :
  acquire rl now
  = let pruned := within now (window_size rl) (requests rl) in
    if (max_per_hour rl <=? Z.of_nat (length pruned))%Z then
      (false, with_requests rl pruned)
    else if (max_burst rl <=?
               Z.of_nat (length pruned) - Z.of_nat (length (within now 60 pruned)))%Z
    then (false, with_requests rl pruned)
    else (true, with_requests rl (pruned ++ [now])%list).
Proof. reflexivity. Qed.

(** What a call leaves in [requests]: the pruned list, with the clock
    reading at its end when the call allowed. *)
Lemma acquire_requests (rl : RateLimiter) (now : Q) :
  requests (snd (acquire rl now))
  = (within now (window_size rl) (requests rl)
       ++ (if fst (acquire rl now) then [now] else []))%list.
Proof.
  rewrite acquire_unfold. cbv zeta.
  destruct (max_per_hour rl <=? _)%Z; [|destruct (max_burst rl <=? _)%Z]; cbn; now rewrite ?app_nil_r.
Qed.

Lemma acquire_config (rl : RateLimiter) (now : Q) :
  max_per_hour (snd (acquire rl now)) = max_per_hour rl /\
  max_burst (snd (acquire rl now)) = max_burst rl /\
  window_size (snd (acquire rl now)) = window_size rl.
Proof.
  rewrite acquire_unfold. cbv zeta.
  destruct (max_per_hour rl <=? _)%Z; [|destruct (max_burst rl <=? _)%Z]; cbn; auto.
Qed.

(** The decision the code takes: deny when the pruned count reaches
    [max_per_hour], and else deny when the number of pruned entries that
    are older than sixty seconds reaches [max_burst]. *)
Lemma acquire_decides (rl : RateLimiter) (now : Q) :
  let pruned := within now (window_size rl) (requests rl) in
  fst (acquire rl now)
  = negb (max_per_hour rl <=? Z.of_nat (length pruned))%Z
    && negb (max_burst rl <=?
               Z.of_nat (length pruned) - Z.of_nat (length (within now 60 pruned)))%Z.
Proof.
  rewrite acquire_unfold. cbv zeta.
  destruct (max_per_hour rl <=? _)%Z; [|destruct (max_burst rl <=? _)%Z]; reflexivity.
Qed.

(** A limiter that ever allowed a call has a positive [max_burst]. *)
Lemma acquire_allowed_burst_positive (rl : RateLimiter) (now : Q) :
  fst (acquire rl now) = true -> (0 < max_burst rl)%Z.
Proof.
  rewrite acquire_decides. cbn zeta. intros H.
  apply andb_true_iff in H as [_ H]. apply negb_true_iff, Z.leb_gt in H.
  pose proof (within_length now 60 (within now (window_size rl) (requests rl))).
  lia.
Qed.

(** An allowed call keeps a recent tail of [requests] and adds its own
    reading to it. *)
Lemma acquire_allowed_tail (rl : RateLimiter) (now : Q) (p s : list Q) :
  requests rl = (p ++ s)%list ->
  (forall ts, In ts s -> now - ts <= window_size rl) ->
  fst (acquire rl now) = true ->
  exists p', requests (snd (acquire rl now)) = (p' ++ (s ++ [now]))%list.
Proof.
  intros Hreq Hs Hok. rewrite acquire_requests, Hok, Hreq, within_app.
  rewrite (within_all _ _ s Hs). eexists. now rewrite <- app_assoc.
Qed.

Lemma acquire_all_cons (rl : RateLimiter) (t : Q) (ts : list Q) :
  acquire_all rl (t :: ts)
  = (fst (acquire rl t) :: fst (acquire_all (snd (acquire rl t)) ts),
     snd (acquire_all (snd (acquire rl t)) ts)).
Proof.
  cbn [acquire_all]. destruct (acquire rl t) as [b r1]. cbn [fst snd].
  destruct (acquire_all r1 ts) as [bs r2]. reflexivity.
Qed.

(** C10. A call of [acquire] that returns false appends nothing: it
    leaves the pruned list, which is no longer than the list it found;
    the recorded sequence gains an entry, the clock reading of the call,
    exactly when the call returns true. *)
Theorem acquire_appends_only_when_allowed (rl : RateLimiter) (now : Q) :
  let pruned := within now (window_size rl) (requests rl) in
  let '(allowed, rl') := acquire rl now in
  (length pruned <= length (requests rl))%nat /\
  if allowed then requests rl' = (pruned ++ [now])%list
  else requests rl' = pruned.
Proof.
  cbn zeta. pose proof (acquire_requests rl now) as H.
  destruct (acquire rl now) as [allowed rl']. cbn [fst snd] in H.
  split; [apply within_length|].
  destruct allowed; [exact H | now rewrite H, app_nil_r].
Qed.

Lemma acquire_all_config (ts : list Q) (rl : RateLimiter) :
  max_per_hour (snd (acquire_all rl ts)) = max_per_hour rl /\
  max_burst (snd (acquire_all rl ts)) = max_burst rl /\
  window_size (snd (acquire_all rl ts)) = window_size rl.
Proof.
  revert rl. induction ts as [|t ts IH]; intros rl; [repeat split|].
  rewrite acquire_all_cons. cbn [snd].
  destruct (IH (snd (acquire rl t))) as (H1 & H2 & H3).
  destruct (acquire_config rl t) as (G1 & G2 & G3).
  repeat split; congruence.
Qed.

(** A run of allowed calls whose readings stay within one window of each
    other leaves those readings, in order, at the end of [requests]. *)
Lemma acquire_all_allowed_tail (ts : list Q) :
  forall (rl : RateLimiter) (p s : list Q),
    requests rl = (p ++ s)%list ->
    (forall x t, In x (s ++ ts)%list -> In t ts -> t - x <= window_size rl) ->
    fst (acquire_all rl ts) = List.map (fun _ => true) ts ->
    exists p', requests (snd (acquire_all rl ts)) = (p' ++ (s ++ ts))%list.
Proof.
  induction ts as [|t ts IH]; intros rl p s Hreq Hwin Hok.
  - exists p. rewrite app_nil_r. exact Hreq.
  - rewrite acquire_all_cons in Hok. cbn [fst List.map] in Hok.
    injection Hok as Hb Hrest.
    rewrite acquire_all_cons. cbn [snd].
    destruct (acquire_allowed_tail rl t p s Hreq) as [p1 E1]; [|exact Hb|].
    { intros x Hx. apply Hwin; [apply in_or_app; left; exact Hx | left; reflexivity]. }
    destruct (acquire_config rl t) as (_ & _ & Hw).
    destruct (IH (snd (acquire rl t)) p1 (s ++ [t])%list E1) as [p' E'];
      [|exact Hrest|].
    { intros x u Hx Hu. rewrite Hw. apply Hwin; [|right; exact Hu].
      rewrite <- app_assoc in Hx. exact Hx. }
    exists p'. rewrite E', <- app_assoc. reflexivity.
Qed.

(** A call finds the limiter full when [requests] ends in at least
    [max_per_hour] readings that are all within the window: it is denied
    and leaves those readings where they are. *)
Lemma acquire_full_denied (r : RateLimiter) (now : Q) (p s : list Q) :
  requests r = (p ++ s)%list ->
  (max_per_hour r <= Z.of_nat (length s))%Z ->
  (forall ts, In ts s -> now - ts <= window_size r) ->
  fst (acquire r now) = false /\
  exists p', requests (snd (acquire r now)) = (p' ++ s)%list.
Proof.
  intros Hreq Hfull Hs.
  assert (Hdeny : fst (acquire r now) = false).
  { rewrite acquire_decides. cbv zeta. rewrite Hreq, within_app.
    rewrite (within_all _ _ s Hs), length_app.
    apply andb_false_iff. left. apply negb_false_iff, Z.leb_le.
    clear -Hfull. lia. }
  split; [exact Hdeny|].
  rewrite acquire_requests, Hdeny, Hreq, within_app, (within_all _ _ s Hs), app_nil_r.
  eexists. reflexivity.
Qed.

Lemma acquire_all_full_denied (later : list Q) :
  forall (r : RateLimiter) (p s : list Q),
    requests r = (p ++ s)%list ->
    (max_per_hour r <= Z.of_nat (length s))%Z ->
    (forall t ts, In t later -> In ts s -> t - ts <= window_size r) ->
    fst (acquire_all r later) = List.map (fun _ => false) later.
Proof.
  induction later as [|t later IH]; intros r p s Hreq Hfull Hs; [reflexivity|].
  rewrite acquire_all_cons. cbn [fst List.map].
  destruct (acquire_full_denied r t p s Hreq Hfull) as [Hdeny [p' Hreq']].
  { intros ts Hts. apply Hs; [left; reflexivity | exact Hts]. }
  destruct (acquire_config r t) as (Hm & _ & Hw).
  rewrite Hdeny. f_equal. apply (IH _ p' s Hreq').
  - rewrite Hm. exact Hfull.
  - intros u ts Hu Hts. rewrite Hw. apply Hs; [right; exact Hu | exact Hts].
Qed.

(** [requests] holds nothing but what it held before and the readings of
    the calls made since. *)
Lemma acquire_requests_In (r : RateLimiter) (now x : Q) :
  In x (requests (snd (acquire r now))) -> In x (requests r) \/ x = now.
Proof.
  rewrite acquire_requests. intros H. apply in_app_or in H as [H|H].
  - left. apply within_In in H. apply H.
  - right. destruct (fst (acquire r now)); [|destruct H].
    destruct H as [H|[]]. symmetry. exact H.
Qed.

Lemma acquire_all_requests_In (ts : list Q) :
  forall (r : RateLimiter) (x : Q),
    In x (requests (snd (acquire_all r ts))) -> In x (requests r) \/ In x ts.
Proof.
  induction ts as [|t ts IH]; intros r x H; [left; exact H|].
  rewrite acquire_all_cons in H. cbn [snd] in H.
  apply IH in H as [H|H]; [|right; right; exact H].
  apply acquire_requests_In in H as [H|H]; [left; exact H | right; left; symmetry; exact H].
Qed.

(** Once every recorded reading is older than the window the call is
    allowed, for a limiter that can allow a call at all. *)
Lemma acquire_after_window (r : RateLimiter) (now : Q) :
  (0 < max_per_hour r)%Z -> (0 < max_burst r)%Z ->
  (forall ts, In ts (requests r) -> window_size r < now - ts) ->
  fst (acquire r now) = true.
Proof.
  intros Hm Hb Hold. rewrite acquire_decides. cbv zeta.
  rewrite (within_none now (window_size r) (requests r) Hold).
  change (within now 60 []) with (@nil Q). cbn [length].
  change (Z.of_nat 0) with 0%Z.
  apply andb_true_iff. split; apply negb_true_iff, Z.leb_gt; [exact Hm|].
  clear -Hb. lia.
Qed.

(** C5. With [max_per_hour = 5] and a window of 3600 seconds, after
    five allowed calls at the readings [t1 <= ... <= t5]:
    - every call made from then on while the first of the five is no
      more than 3600 seconds old returns false: the sixth, and the
      seventh after a denied sixth, and so on;
    - whatever calls [later] were made after the five, a call at a
      reading [t] returns true again once everything the limiter can
      have recorded (what it held at the start, the five readings and
      those of the later calls) is more than 3600 seconds older than
      [t]; in particular right after the five calls, without a denied
      call in between;
    - the same holds when it is the record the limiter then holds whose
      entries are all more than 3600 seconds old. *)
Theorem acquire_sixth_denied_then_allowed
    (rl r5 : RateLimiter) (t1 t2 t3 t4 t5 : Q) :
  max_per_hour rl = 5%Z -> window_size rl = 3600 ->
  t1 <= t2 -> t2 <= t3 -> t3 <= t4 -> t4 <= t5 ->
  acquire_all rl [t1; t2; t3; t4; t5] = ([true; true; true; true; true], r5) ->
  (forall later : list Q,
      (forall t, In t later -> t5 <= t /\ t - t1 <= 3600) ->
      fst (acquire_all r5 later) = List.map (fun _ => false) later) /\
  (forall (later : list Q) (t : Q),
      (forall ts, In ts (requests rl ++ [t1; t2; t3; t4; t5] ++ later)%list ->
                  3600 < t - ts) ->
      fst (acquire (snd (acquire_all r5 later)) t) = true) /\
  (forall (later : list Q) (t : Q),
      (forall ts, In ts (requests (snd (acquire_all r5 later))) -> 3600 < t - ts) ->
      fst (acquire (snd (acquire_all r5 later)) t) = true).
Proof.
  intros Hmax Hwin H12 H23 H34 H45 Hrun.
  assert (Hfst : fst (acquire_all rl [t1; t2; t3; t4; t5])
                 = List.map (fun _ => true) [t1; t2; t3; t4; t5])
    by (rewrite Hrun; reflexivity).
  assert (Hsnd : snd (acquire_all rl [t1; t2; t3; t4; t5]) = r5)
    by (rewrite Hrun; reflexivity).
  clear Hrun.
  assert (Hrange : forall x, In x [t1; t2; t3; t4; t5] -> t1 <= x /\ x <= t5).
  { intros x [<-|[<-|[<-|[<-|[<-|[]]]]]]; split; lra. }
  destruct (acquire_all_config [t1; t2; t3; t4; t5] rl) as (Hm & Hu & Hw).
  rewrite Hsnd in Hm, Hu, Hw. rewrite Hmax in Hm. rewrite Hwin in Hw.
  assert (Hpos : (0 < max_burst r5)%Z).
  { rewrite Hu. apply (acquire_allowed_burst_positive rl t1).
    rewrite acquire_all_cons in Hfst. cbn [fst List.map] in Hfst.
    injection Hfst as Hb _. exact Hb. }
  assert (Hrecord : forall later t,
             (forall ts, In ts (requests (snd (acquire_all r5 later))) -> 3600 < t - ts) ->
             fst (acquire (snd (acquire_all r5 later)) t) = true).
  { intros later t Hold.
    destruct (acquire_all_config later r5) as (Hm' & Hu' & Hw').
    apply acquire_after_window.
    - rewrite Hm', Hm. reflexivity.
    - rewrite Hu'. exact Hpos.
    - intros ts Hts. rewrite Hw', Hw. exact (Hold ts Hts). }
  split; [|split; [|exact Hrecord]].
  - intros later Hlater. destruct later as [|t6 later]; [reflexivity|].
    assert (Hspan : t5 - t1 <= 3600).
    { destruct (Hlater t6 (or_introl eq_refl)). lra. }
    destruct (acquire_all_allowed_tail [t1; t2; t3; t4; t5] rl (requests rl) [])
      as [p5 E5]; [apply eq_sym, app_nil_r | | exact Hfst |].
    { intros x t Hx Ht. rewrite Hwin. cbn [app] in Hx.
      destruct (Hrange x Hx), (Hrange t Ht). lra. }
    rewrite Hsnd in E5. cbn [app] in E5.
    apply (acquire_all_full_denied (t6 :: later) r5 p5 [t1; t2; t3; t4; t5] E5).
    + rewrite Hm. cbn [length]. clear. lia.
    + intros t ts Ht Hts. rewrite Hw.
      destruct (Hlater t Ht), (Hrange ts Hts). lra.
  - intros later t Hold. apply Hrecord. intros ts Hts. apply Hold.
    apply acquire_all_requests_In in Hts as [Hts|Hts].
    + rewrite <- Hsnd in Hts. apply acquire_all_requests_In in Hts as [Hts|Hts].
      * apply in_or_app. left. exact Hts.
      * apply in_or_app. right. apply in_or_app. left. exact Hts.
    + apply in_or_app. right. apply in_or_app. right. exact Hts.
Qed.

Lemma acquire_sixth_denied_then_allowed_witness :
  let r5 := snd (acquire_all (RateLimiter_init 5 5) [0; 1; 2; 3; 4]) in
  fst (acquire_all r5 [5; 6]) = [false; false] /\
  fst (acquire (snd (acquire_all r5 [5; 6])) 4000) = true /\
  fst (acquire r5 3605) = true.
Proof.
  cbn zeta.
  destruct (acquire_sixth_denied_then_allowed (RateLimiter_init 5 5)
              (snd (acquire_all (RateLimiter_init 5 5) [0; 1; 2; 3; 4]))
              0 1 2 3 4 eq_refl eq_refl
              ltac:(vm_compute; discriminate) ltac:(vm_compute; discriminate)
              ltac:(vm_compute; discriminate) ltac:(vm_compute; discriminate)
              eq_refl) as (Hdenied & Hagain & Hrecord).
  split; [|split].
  - apply (Hdenied [5; 6]).
    intros t [<-|[<-|[]]]; split; vm_compute; discriminate.
  - apply (Hagain [5; 6] 4000).
    intros ts H. vm_compute in H.
    repeat (destruct H as [<-|H]; [reflexivity|]). destruct H.
  - apply (Hrecord [] 3605).
    intros ts H. vm_compute in H.
    repeat (destruct H as [<-|H]; [reflexivity|]). destruct H.
Defined.

(** C6. The burst check of [acquire] does not count the entries of the
    last sixty seconds: it subtracts that count from the total.  With
    [max_burst = 5] and five entries recorded within the last five
    seconds the call is allowed (six calls within five seconds are all
    allowed), and with five entries older than a minute and none recent
    it is denied. *)
Theorem acquire_burst_check_counts_old_entries :
  let recent := mk_limiter 20 5 3600 [96; 97; 98; 99; 100] in
  let old := mk_limiter 20 5 3600 [0; 1; 2; 3; 4] in
  (spec.burst_count recent 100 60 = 5%nat /\
   spec.acquire_decision recent 100 = false /\
   fst (acquire recent 100) = true) /\
  (spec.burst_count old 100 60 = 0%nat /\
   spec.acquire_decision old 100 = true /\
   fst (acquire old 100) = false) /\
  fst (acquire_all (RateLimiter_init 20 5) [96; 97; 98; 99; 100; 100])
  = [true; true; true; true; true; true].
Proof. vm_compute. repeat split. Qed.

End rate_limiter.

(** ** The channel senders *)

Section channel_senders.
Import email_service sms_service inputs.

Example RateLimiter_call_config :
  RateLimiter_call RATE_LIMIT_CONFIG
  = Raise (TypeError "__init__() got an unexpected keyword argument 'max_emails_per_hour'").
Proof. reflexivity. Qed.


(** The same with a limiter already in place: a template that fails to
    render makes [send_email] raise. *)
Example send_email_render_failure :
  let svc := mk_email_service true true {[ "user@example.com" := RateLimiter_init 20 5 ]} ∅ in
  let env := mk_email_env (fun a => Return a) 100
               (Raise (ValueError "Template not found: en/marketing/email.j2"))
               (Return 202%Z) (Return tt) in
  fst (send_email svc "user@example.com" (fun _ => env))
  = Raise (RetryError (ValueError "Template not found: en/marketing/email.j2")).
Proof. vm_compute. reflexivity. Qed.


(** A denial in [send_sms]: [NotificationStatus] has no member
    [RATE_LIMITED], the attribute lookup raises inside the [try] block and
    the outcome is the one of the generic handler. *)
Example send_sms_denied :
  let svc := mk_sms_service {[ "transaction_alert" := (5%Z, 3600%Q) ]}
               {[ "+12025550100" := {[ "transaction_alert" := mk_tracking 5 0%Q ]} ]} in
  let env := mk_sms_env (fun _ => Return tt) true 10%Q (fun m => m)
               (fun _ _ => Return "SM1") in
  fst (send_sms svc "+12025550100" "Transaction of 5 Pi" "transaction_alert" false env)
  = Return (mk_sms_result FAILED (Some "RATE_LIMITED") None None 10%Q None).
Proof. vm_compute. reflexivity. Qed.



Lemma reraise_fst (svc : EmailService) (to_email : string) (e : exn) (now : Q) :
  fst (reraise svc to_email e now) = Raise e.
Proof. unfold reraise. destruct (_delivery_stats svc !! to_email); reflexivity. Qed.





Lemma reraise_rate_limiters (svc : EmailService) (to_email : string) (e : exn) (now : Q) :
  _rate_limiters (snd (reraise svc to_email e now)) = _rate_limiters svc.
Proof. unfold reraise. destruct (_delivery_stats svc !! to_email); reflexivity. Qed.








End channel_senders.

(** ** The push sender *)

Section push.
Import push_notification inputs.
Variable P : providers.

(** C7.  One user with one active iOS device whose token APNS rejects as
    invalid, and two notifications sent one after the other: the first
    send puts the token on the blacklist, and the second send calls APNS
    with the same token again, so the token is not excluded from later
    sends. *)
Theorem invalid_token_sent_again :
  let w1 := snd (send_notification apns_rejects (pending "n1" "alice") 1%Q one_ios_device) in
  let w2 := snd (send_notification apns_rejects (pending "n2" "alice") 2%Q w1) in
  (apns_calls w1 = ["tok-1"] /\ sismember (redis w1) "ios" "tok-1" = true /\
   apns_calls w2 = ["tok-1"; "tok-1"]) /\
  ~ spec.invalid_token_never_resent apns_rejects
      (pending "n1" "alice") (pending "n2" "alice") 1%Q one_ios_device.
Proof.
  cbn zeta. split; [vm_compute; repeat split|].
  intros H. apply (H "tok-1").
  - exists 0%nat. split; reflexivity.
  - vm_compute. left. reflexivity.
Qed.

(** *** The blacklist only grows *)

Lemma blacklist_le_refl (r : Redis) : spec.blacklist_le r r.
Proof. intros p. reflexivity. Qed.

Lemma blacklist_le_trans (r1 r2 r3 : Redis) :
  spec.blacklist_le r1 r2 -> spec.blacklist_le r2 r3 -> spec.blacklist_le r1 r3.
Proof. intros H1 H2 p. etrans; [apply H1 | apply H2]. Qed.

Lemma smembers_sadd (r : Redis) (p q tok : string) :
  smembers (sadd r p tok) q
  = if decide (p = q) then {[ tok ]} ∪ smembers r p else smembers r q.
Proof.
  unfold smembers, sadd. cbn [blacklisted_tokens].
  rewrite lookup_insert. destruct (decide (p = q)); reflexivity.
Qed.

Lemma blacklist_le_sadd (r : Redis) (p tok : string) : spec.blacklist_le r (sadd r p tok).
Proof.
  intros q. rewrite smembers_sadd. destruct (decide (p = q)) as [->|]; set_solver.
Qed.

Lemma elem_of_smembers_sadd (r : Redis) (p tok : string) :
  tok ∈ smembers (sadd r p tok) p.
Proof. rewrite smembers_sadd, decide_True by reflexivity. set_solver. Qed.

Lemma blacklist_le_foldl (res : list (string * bool * option string)) (r : Redis) :
  spec.blacklist_le r
    (foldl (fun r (x : string * bool * option string) =>
              if snd (fst x) then r else sadd r "android" (fst (fst x))) r res).
Proof.
  revert r. induction res as [|x res IH]; intros r; [apply blacklist_le_refl|].
  cbn [foldl]. eapply blacklist_le_trans; [|apply IH].
  destruct (snd (fst x)); [apply blacklist_le_refl | apply blacklist_le_sadd].
Qed.

Lemma smembers_foldl_ios (res : list (string * bool * option string)) (r : Redis) :
  smembers
    (foldl (fun r (x : string * bool * option string) =>
              if snd (fst x) then r else sadd r "android" (fst (fst x))) r res) "ios"
  = smembers r "ios".
Proof.
  revert r. induction res as [|x res IH]; intros r; [reflexivity|].
  cbn [foldl]. rewrite IH. destruct (snd (fst x)); [reflexivity|].
  rewrite smembers_sadd. reflexivity.
Qed.

(** What [_send_fcm] leaves: the same APNS log, the same iOS blacklist,
    a blacklist that has not shrunk, and a response whose [success] says
    whether a token of the batch succeeded. *)
Lemma fcm_loop_effect (fuel attempt : nat) (tokens : list string) (w : world) :
  let '(resp, w') := fcm_loop P fuel attempt tokens w in
  apns_calls w' = apns_calls w /\
  smembers (redis w') "ios" = smembers (redis w) "ios" /\
  spec.blacklist_le (redis w) (redis w') /\
  success resp = existsb (fun x => snd (fst x)) (results resp).
Proof.
  revert attempt w. induction fuel as [|fuel IH]; intros attempt w.
  - cbn. repeat split. apply blacklist_le_refl.
  - cbn [fcm_loop].
    destruct (fcm_reply P (length (fcm_calls w)) (take _batch_size tokens))
      as [responses|e].
    + cbn. repeat split.
      * apply smembers_foldl_ios.
      * apply blacklist_le_foldl.
    + destruct (attempt =? _max_retries - 1)%nat.
      * cbn. repeat split. apply blacklist_le_refl.
      * specialize (IH (S attempt)
                       (mk_world (redis w) (apns_calls w)
                          (fcm_calls w ++ [take _batch_size tokens]))).
        destruct (fcm_loop P fuel (S attempt) tokens _) as [resp w'].
        exact IH.
Qed.

(** *** Tokens reported invalid are blacklisted *)

Lemma covers_logged (w : world) (tok : string) :
  spec.blacklist_covers P w ->
  apns_reply P (length (apns_calls w)) tok <> Raise BadDeviceToken ->
  spec.blacklist_covers P (mk_world (redis w) (apns_calls w ++ [tok]) (fcm_calls w)).
Proof.
  intros Hinv Hreply tok' (k & Hk & Hbad). cbn [apns_calls redis] in *.
  destruct (decide (k < length (apns_calls w))) as [Hlt|Hge].
  - rewrite lookup_app_l in Hk by exact Hlt. apply Hinv. exists k. split; assumption.
  - rewrite lookup_app_r in Hk by lia.
    destruct (k - length (apns_calls w))%nat as [|j] eqn:Hj; [|destruct j; discriminate].
    injection Hk as <-. replace k with (length (apns_calls w)) in Hbad by lia.
    contradiction.
Qed.

Lemma covers_blacklisted (w : world) (tok : string) :
  spec.blacklist_covers P w ->
  spec.blacklist_covers P
    (mk_world (sadd (redis w) "ios" tok) (apns_calls w ++ [tok]) (fcm_calls w)).
Proof.
  intros Hinv tok' (k & Hk & Hbad). cbn [apns_calls redis] in *.
  destruct (decide (k < length (apns_calls w))) as [Hlt|Hge].
  - rewrite lookup_app_l in Hk by exact Hlt.
    apply (blacklist_le_sadd (redis w) "ios" tok "ios"), Hinv.
    exists k. split; assumption.
  - rewrite lookup_app_r in Hk by lia.
    destruct (k - length (apns_calls w))%nat as [|j] eqn:Hj; [|destruct j; discriminate].
    injection Hk as <-. apply elem_of_smembers_sadd.
Qed.

Lemma covers_same_log (w w' : world) :
  spec.blacklist_covers P w ->
  apns_calls w' = apns_calls w ->
  smembers (redis w) "ios" ⊆ smembers (redis w') "ios" ->
  spec.blacklist_covers P w'.
Proof.
  intros Hinv Hlog Hsub tok Hrep. rewrite Hlog in Hrep. apply Hsub, Hinv, Hrep.
Qed.

Lemma apns_loop_effect (fuel attempt : nat) (tok : string) (w : world) :
  apns_has_BadDeviceToken P = true ->
  spec.blacklist_covers P w ->
  let w' := snd (apns_loop P fuel attempt tok w) in
  spec.blacklist_covers P w' /\ spec.blacklist_le (redis w) (redis w').
Proof.
  intros Hcls. revert attempt w. induction fuel as [|fuel IH]; intros attempt w Hinv.
  - cbn. split; [exact Hinv | apply blacklist_le_refl].
  - cbn [apns_loop]. rewrite Hcls. cbn [negb].
    destruct (apns_reply P (length (apns_calls w)) tok) as [[]|e] eqn:Hreply.
    + cbn. split; [|apply blacklist_le_refl].
      apply covers_logged; [exact Hinv | rewrite Hreply; discriminate].
    + assert (Hother : e <> BadDeviceToken ->
                let w1 := mk_world (redis w) (apns_calls w ++ [tok]) (fcm_calls w) in
                let w' := snd (if (attempt =? _max_retries - 1)%nat
                               then (Return (Some (tok, false, Some (str_exn e))), w1)
                               else apns_loop P fuel (S attempt) tok w1) in
                spec.blacklist_covers P w' /\ spec.blacklist_le (redis w) (redis w')).
      { intros Hne. cbn zeta.
        assert (Hinv1 : spec.blacklist_covers P
                          (mk_world (redis w) (apns_calls w ++ [tok]) (fcm_calls w))).
        { apply covers_logged; [exact Hinv | rewrite Hreply; congruence]. }
        destruct (attempt =? _max_retries - 1)%nat.
        - cbn. split; [exact Hinv1 | apply blacklist_le_refl].
        - apply (IH (S attempt) _ Hinv1). }
      destruct e; try (apply Hother; discriminate).
      cbn. split; [apply covers_blacklisted, Hinv | apply blacklist_le_sadd].
Qed.

Lemma apns_tokens_effect (tokens : list string)
    (results : list (string * bool * option string)) (w : world) :
  apns_has_BadDeviceToken P = true ->
  spec.blacklist_covers P w ->
  let w' := snd (apns_tokens P tokens results w) in
  spec.blacklist_covers P w' /\ spec.blacklist_le (redis w) (redis w').
Proof.
  intros Hcls. revert results w.
  induction tokens as [|tok rest IH]; intros results w Hinv.
  - cbn. split; [exact Hinv | apply blacklist_le_refl].
  - cbn [apns_tokens].
    pose proof (apns_loop_effect _max_retries 0 tok w Hcls Hinv) as [H1 H2].
    destruct (apns_loop P _max_retries 0 tok w) as [[entry|e] w1]; cbn [snd] in H1, H2.
    + destruct (IH (results ++ option_list entry) w1 H1) as [H3 H4].
      split; [exact H3 | eapply blacklist_le_trans; eassumption].
    + split; assumption.
Qed.

Lemma _send_apns_effect (tokens : list string) (w : world) :
  apns_has_BadDeviceToken P = true ->
  spec.blacklist_covers P w ->
  let w' := snd (_send_apns P tokens w) in
  spec.blacklist_covers P w' /\ spec.blacklist_le (redis w) (redis w').
Proof.
  intros Hcls Hinv. unfold _send_apns.
  pose proof (apns_tokens_effect tokens [] w Hcls Hinv) as H.
  destruct (apns_tokens P tokens [] w) as [[results|e] w']; exact H.
Qed.

(** Once the provider has answered that the token is invalid, the loop
    for that device entry makes no further call. *)
Lemma apns_loop_stops_at_invalid (fuel attempt : nat) (tok : string) (w : world)
    (k : nat) :
  let w' := snd (apns_loop P fuel attempt tok w) in
  length (apns_calls w) <= k < length (apns_calls w') ->
  apns_reply P k tok = Raise BadDeviceToken ->
  length (apns_calls w') = S k.
Proof.
  revert attempt w. induction fuel as [|fuel IH]; intros attempt w; cbn zeta.
  - cbn. lia.
  - cbn [apns_loop].
    destruct (apns_reply P (length (apns_calls w)) tok) as [[]|e] eqn:Hreply.
    + cbn. rewrite length_app. cbn. lia.
    + destruct (apns_has_BadDeviceToken P); cbn [negb];
        [|cbn; rewrite length_app; cbn; lia].
      assert (Hother : e <> BadDeviceToken ->
                let w1 := mk_world (redis w) (apns_calls w ++ [tok]) (fcm_calls w) in
                let w' := snd (if (attempt =? _max_retries - 1)%nat
                               then (Return (Some (tok, false, Some (str_exn e))), w1)
                               else apns_loop P fuel (S attempt) tok w1) in
                length (apns_calls w) <= k < length (apns_calls w') ->
                apns_reply P k tok = Raise BadDeviceToken ->
                length (apns_calls w') = S k).
      { intros Hne. cbn zeta. intros Hk Hbad.
        assert (Hk0 : k <> length (apns_calls w)).
        { intros ->. rewrite Hreply in Hbad. congruence. }
        destruct (attempt =? _max_retries - 1)%nat.
        - cbn in Hk |- *. rewrite length_app in Hk |- *. cbn in Hk |- *. lia.
        - apply IH; [|exact Hbad]. cbn [apns_calls] in Hk |- *.
          rewrite length_app. cbn [length]. lia. }
      destruct e; try (apply Hother; discriminate).
      cbn. rewrite length_app. cbn. lia.
Qed.

(** *** One notification *)

(** [send_notification] for a user with at least one device record,
    step by step. *)
Lemma send_notification_steps (n : Notification) (now : Q) (w : world)
    (d : token_data) (ds : list token_data) :
  lrange (redis w) (user_id n) = d :: ds ->
  let android := active_tokens true (d :: ds) in
  let ios := active_tokens false (d :: ds) in
  let f := _send_fcm P android w in
  let w1 := match android with [] => w | _ => snd f end in
  let a := _send_apns P ios w1 in
  let w2 := match ios with [] => w1 | _ => snd a end in
  let ok := match android with [] => true | _ => success (fst f) end
            && match ios with [] => true | _ => success (fst a) end in
  let info1 : gmap string info_value :=
    match android with [] => ∅ | _ => <[ "fcm" := InfoResponse (fst f) ]> ∅ end in
  let info :=
    match ios with [] => info1 | _ => <[ "apns" := InfoResponse (fst a) ]> info1 end in
  send_notification P n now w
  = let '(r, n') :=
      if ok then update_status n SENT None (Some info) now
      else update_status n FAILED (Some "Partial or complete delivery failure")
             (Some info) now in
    match r with
    | Return _ => (Return ok, n', w2)
    | Raise e => on_exception n' e now w2
    end.
Proof.
  intros Hl. cbn zeta. unfold send_notification. rewrite Hl.
  destruct (active_tokens true (d :: ds)) as [|ta tas];
    destruct (active_tokens false (d :: ds)) as [|ti tis].
  - reflexivity.
  - destruct (_send_apns P (ti :: tis) w) as [ar w2]. reflexivity.
  - destruct (_send_fcm P (ta :: tas) w) as [fr w1]. cbn [fst snd].
    rewrite andb_true_r. reflexivity.
  - destruct (_send_fcm P (ta :: tas) w) as [fr w1]. cbn [fst snd].
    destruct (_send_apns P (ti :: tis) w1) as [ar w2]. reflexivity.
Qed.

Lemma on_exception_world (n : Notification) (e : exn) (now : Q) (w : world) :
  snd (on_exception n e now w) = w.
Proof.
  unfold on_exception.
  destruct (update_status n FAILED (Some (str_exn e)) None now) as [[[]|e'] n'];
    reflexivity.
Qed.

(** The store and the logs after [send_notification]. *)
Lemma send_notification_world (n : Notification) (now : Q) (w : world) :
  snd (send_notification P n now w)
  = match lrange (redis w) (user_id n) with
    | [] => w
    | tokens_data =>
        let android := active_tokens true tokens_data in
        let ios := active_tokens false tokens_data in
        let w1 := match android with [] => w | _ => snd (_send_fcm P android w) end in
        match ios with [] => w1 | _ => snd (_send_apns P ios w1) end
    end.
Proof.
  destruct (lrange (redis w) (user_id n)) as [|d ds] eqn:Hl.
  - unfold send_notification. rewrite Hl.
    destruct (update_status n FAILED (Some "No registered devices") None now)
      as [[[]|e] n']; [reflexivity | apply on_exception_world].
  - rewrite (send_notification_steps n now w d ds Hl). cbn zeta.
    match goal with
    | |- context [let '(r, n') := ?u in _] => destruct u as [[[]|e] n']
    end; [reflexivity | apply on_exception_world].
Qed.

Lemma register_device_blacklist (w : world) (user tok platform : string) (now : Q) :
  let w' := snd (register_device w user tok platform now) in
  blacklisted_tokens (redis w') = blacklisted_tokens (redis w) /\
  apns_calls w' = apns_calls w.
Proof.
  unfold register_device.
  destruct (negb _); [split; reflexivity|].
  destruct (sismember _ _ _); [split; reflexivity|].
  destruct (5 <=? _)%nat; split; reflexivity.
Qed.

(** What does hold of invalid tokens, where the installed [aioapns] has
    the [BadDeviceToken] class.  A token that APNS reports invalid
    is put on the blacklist, and the blacklist never loses a token: if
    every token reported so far is blacklisted before a notification is
    sent, so it is afterwards, and registering devices does not change
    that; a later registration of a blacklisted token is refused; and the
    retry loop makes no further call for the device entry once the token
    was reported invalid. *)
Theorem invalid_tokens_stay_blacklisted (n : Notification) (now : Q) (w : world) :
  apns_has_BadDeviceToken P = true ->
  spec.blacklist_covers P w ->
  let w' := snd (send_notification P n now w) in
  spec.blacklist_covers P w' /\
  spec.blacklist_le (redis w) (redis w') /\
  (forall user tok platform now',
      let w'' := snd (register_device w' user tok platform now') in
      spec.blacklist_covers P w'' /\ spec.blacklist_le (redis w') (redis w'')) /\
  (forall user tok now',
      tok ∈ smembers (redis w') "ios" ->
      register_device w' user tok "ios" now' = (false, w')) /\
  (forall fuel attempt tok w0 k,
      length (apns_calls w0) <= k
        < length (apns_calls (snd (apns_loop P fuel attempt tok w0))) ->
      apns_reply P k tok = Raise BadDeviceToken ->
      length (apns_calls (snd (apns_loop P fuel attempt tok w0))) = S k).
Proof.
  intros Hcls Hinv. cbn zeta.
  assert (Hsend : spec.blacklist_covers P (snd (send_notification P n now w)) /\
                  spec.blacklist_le (redis w) (redis (snd (send_notification P n now w)))).
  { rewrite send_notification_world.
    destruct (lrange (redis w) (user_id n)) as [|d ds];
      [split; [exact Hinv | apply blacklist_le_refl]|].
    cbn zeta.
    set (android := active_tokens true (d :: ds)).
    set (ios := active_tokens false (d :: ds)).
    assert (H1 : spec.blacklist_covers P
                   match android with [] => w | _ => snd (_send_fcm P android w) end /\
                 spec.blacklist_le (redis w)
                   (redis match android with [] => w | _ => snd (_send_fcm P android w) end)).
    { destruct android as [|ta tas]; [split; [exact Hinv | apply blacklist_le_refl]|].
      unfold _send_fcm.
      pose proof (fcm_loop_effect _max_retries 0 (ta :: tas) w) as H.
      destruct (fcm_loop P _max_retries 0 (ta :: tas) w) as [resp w1].
      destruct H as (Hlog & Hios & Hle & _). cbn [snd]. split; [|exact Hle].
      apply (covers_same_log w w1 Hinv Hlog). rewrite Hios. reflexivity. }
    destruct H1 as [Hc1 Hle1].
    destruct ios as [|ti tis]; [split; assumption|].
    destruct (_send_apns_effect (ti :: tis) _ Hcls Hc1) as [Hc2 Hle2].
    split; [exact Hc2 | eapply blacklist_le_trans; eassumption]. }
  destruct Hsend as [Hc Hle].
  split; [exact Hc|]. split; [exact Hle|]. split; [|split].
  - intros user tok platform now'. cbn zeta.
    destruct (register_device_blacklist (snd (send_notification P n now w))
                user tok platform now') as [Hb Hl].
    split.
    + eapply covers_same_log; [exact Hc | exact Hl |].
      unfold smembers. rewrite Hb. reflexivity.
    + intros p. unfold smembers. rewrite Hb. reflexivity.
  - intros user tok now' Hin. unfold register_device. cbn [negb orb String.eqb].
    unfold sismember. rewrite bool_decide_eq_true_2 by exact Hin. reflexivity.
  - intros fuel attempt tok w0 k. apply apns_loop_stops_at_invalid.
Qed.




End push.

Section push_examples.
Import push_notification inputs.

Example send_to_two_platforms :
  let '(r, n', w') :=
    send_notification fcm_fails_apns_accepts (pending "n1" "alice") 1%Q two_platforms in
  r = Return false /\ status n' = FAILED /\
  spec.token_results n' = [("tok-a", false, None); ("tok-i", true, None)] /\
  fcm_calls w' = [["tok-a"]] /\ apns_calls w' = ["tok-i"].
Proof. vm_compute. repeat split. Qed.



Example invalid_tokens_stay_blacklisted_at_one_device :
  spec.blacklist_covers apns_rejects
    (snd (send_notification apns_rejects (pending "n1" "alice") 1%Q one_ios_device)).
Proof.
  apply (invalid_tokens_stay_blacklisted apns_rejects (pending "n1" "alice") 1%Q
           one_ios_device eq_refl).
  intros tok (k & Hk & _). destruct k; discriminate Hk.
Defined.

End push_examples.

(** ** The template renderer *)

Section rendering.
Import templates inputs.

(** Printing a variable that the context lacks raises. *)
Lemma render_print_missing (context : gmap string value) (name : string)
    (rest : template) :
  context !! name = None ->
  render StrictUndefined context (TPrint name rest)
  = Raise (SecurityError ("Undefined template variable: " ++ name)).
Proof. intros H. cbn [render]. rewrite H. reflexivity. Qed.

(** Testing it does not: the test is false and the body is left out. *)
Lemma render_if_missing (context : gmap string value) (name : string)
    (body rest : template) :
  context !! name = None ->
  render StrictUndefined context (TIf name body rest)
  = render StrictUndefined context rest.
Proof. intros H. cbn [render]. rewrite H. reflexivity. Qed.

(** C9.  [StrictUndefined] overrides [__str__] only.  A template that
    tests a variable the sanitised context lacks renders, with nothing in
    the place of the conditional text, instead of raising. *)
Theorem render_template_missing_variable_in_test :
  references promo_template "promo_code" = true /\
  _sanitize_context promo_context !! "promo_code" = None /\
  fst (render_template promo_manager MARKETING "email" promo_context None)
  = Return "Hello Mona." /\
  ~ spec.rendering_is_strict StrictUndefined promo_template promo_context.
Proof.
  assert (Hr : render StrictUndefined (_sanitize_context promo_context) promo_template
               = Return "Hello Mona.") by (vm_compute; reflexivity).
  assert (Hs : _sanitize_context promo_context !! "promo_code" = None)
    by (vm_compute; reflexivity).
  split; [reflexivity|]. split; [exact Hs|]. split; [vm_compute; reflexivity|].
  intros H. destruct (H "promo_code" eq_refl Hs) as [e He].
  rewrite Hr in He. discriminate He.
Qed.

End rendering.


(** * Further properties of the code *)

(** ** The notification model *)

Section notification_model.
Import inputs.

(** X1. [update_status] never touches the identity of a notification:
    whatever it is asked and whether it succeeds or raises, [id],
    [user_id], [type], [title], [message], [metadata], [created_at] and
    [read_at] are what they were. *)
Theorem update_status_keeps_identity (n : Notification) (s : NotificationStatus)
    (e : option string) (d : option (gmap string info_value)) (now : datetime) :
  let n' := snd (update_status n s e d now) in
  id n' = id n /\ user_id n' = user_id n /\ type n' = type n /\
  title n' = title n /\ message n' = message n /\ metadata n' = metadata n /\
  created_at n' = created_at n /\ read_at n' = read_at n.
Proof.
  unfold update_status.
  destruct (validate_transition (status n) s); cbn [negb snd]; [|repeat split].
  destruct s, d as [patch|]; cbn; try (destruct (bool_decide (patch = ∅)));
    cbn; repeat split.
Qed.

(** X2. A successful [update_status] merges the patch into
    [delivery_info]: a key of the patch gets the value of the patch, and
    every other key keeps the value it had, so nothing is dropped. *)
Theorem update_status_merges_delivery_info (n : Notification)
    (s : NotificationStatus) (e : option string)
    (patch : gmap string info_value) (now : datetime) (k : string) :
  validate_transition (status n) s = true ->
  delivery_info (snd (update_status n s e (Some patch) now)) !! k
  = match patch !! k with
    | Some v => Some v
    | None => delivery_info n !! k
    end.
Proof.
  intros Hv. unfold update_status. rewrite Hv. cbn [negb snd].
  destruct (bool_decide (patch = ∅)) eqn:Hp.
  - apply bool_decide_eq_true in Hp. subst patch. rewrite lookup_empty.
    destruct s; reflexivity.
  - assert (H : forall m : gmap string info_value,
               dict_update m patch !! k
               = match patch !! k with Some v => Some v | None => m !! k end).
    { intros m. unfold dict_update. rewrite lookup_union.
      destruct (patch !! k), (m !! k); reflexivity. }
    destruct s; cbn; apply H.
Qed.

Lemma update_status_merges_delivery_info_witness :
  delivery_info
    (snd (update_status (pending "n1" "alice") SENT None
            (Some {[ "channel" := InfoStr "push" ]}) 5%Q)) !! "channel"
  = Some (InfoStr "push").
Proof.
  rewrite (update_status_merges_delivery_info (pending "n1" "alice") SENT None
             {[ "channel" := InfoStr "push" ]} 5%Q "channel" eq_refl).
  reflexivity.
Defined.

Lemma validate_transition_rank (current new : NotificationStatus) :
  validate_transition current new = true ->
  (spec.status_rank current < spec.status_rank new)%nat.
Proof. destruct current, new; cbn; intros H; try discriminate H; lia. Qed.

(** X3. Every successful update moves the status strictly forward, so no
    status is entered twice and a notification takes at most four
    successful updates in its life. *)
Theorem update_all_at_most_four (steps : list (NotificationStatus * option string
                                               * option (gmap string info_value) * datetime))
    (n n' : Notification) :
  update_all n steps = Some n' ->
  (spec.status_rank (status n) + length steps <= spec.status_rank (status n'))%nat /\
  (length steps <= 4)%nat.
Proof.
  intros H.
  assert (Hr : (spec.status_rank (status n) + length steps
                <= spec.status_rank (status n'))%nat).
  { revert n H. induction steps as [|[[[s e] d] now] rest IH]; intros n H.
    - cbn in H. injection H as <-. cbn. lia.
    - cbn [update_all] in H.
      destruct (validate_transition (status n) s) eqn:Hv.
      + pose proof (update_status_valid n s e d now Hv) as [H1 H2].
        destruct (update_status n s e d now) as [r n1]. cbn [fst snd] in H1, H2.
        subst r. apply IH in H. rewrite H2 in H.
        apply validate_transition_rank in Hv. cbn [length]. lia.
      + rewrite (update_status_invalid n s e d now Hv) in H. discriminate H. }
  split; [exact Hr|].
  assert (spec.status_rank (status n') <= 4)%nat by (destruct (status n'); cbn; lia).
  lia.
Qed.

Lemma update_all_at_most_four_witness :
  exists n',
    update_all (pending "n1" "alice")
      [(SENT, None, None, 1%Q); (DELIVERED, None, None, 2%Q);
       (READ, None, None, 3%Q); (FAILED, Some "expired", None, 4%Q)] = Some n' /\
    (4 <= spec.status_rank (status n'))%nat.
Proof.
  destruct (update_all (pending "n1" "alice")
              [(SENT, None, None, 1%Q); (DELIVERED, None, None, 2%Q);
               (READ, None, None, 3%Q); (FAILED, Some "expired", None, 4%Q)])
    as [n'|] eqn:H; [|vm_compute in H; discriminate H].
  exists n'. split; [reflexivity|].
  exact (proj1 (update_all_at_most_four _ _ _ H)).
Defined.

(** X4. [mark_as_read] succeeds exactly on a delivered notification: it
    then sets the status to read, stamps [read_at] and records
    [read_timestamp], and a second call raises; on any other status it
    raises [ValueError] and changes nothing. *)
Theorem mark_as_read_only_when_delivered (n : Notification) (now now' : datetime) :
  let '(r, n') := mark_as_read n now in
  if NotificationStatus_eqb (status n) DELIVERED
  then r = Return tt /\ status n' = READ /\ read_at n' = Some now /\
       delivery_info n' !! "read_timestamp" = Some (InfoTime now) /\
       (exists msg, mark_as_read n' now' = (Raise (ValueError msg), n'))
  else (exists msg, r = Raise (ValueError msg)) /\ n' = n.
Proof.
  unfold mark_as_read at 1.
  destruct (status n) eqn:Hs; cbn;
    try (split; [eexists; reflexivity | reflexivity]).
  repeat split.
  - apply lookup_insert_eq.
  - eexists. reflexivity.
Qed.

(** X5. The timestamps follow the status: if a notification that is sent,
    delivered or read has [sent_at], and one that is delivered or read has
    [delivered_at], then the same holds after [update_status] and after
    [mark_as_read], whatever they are asked. *)
Theorem timestamps_stay_consistent (n : Notification) (s : NotificationStatus)
    (e : option string) (d : option (gmap string info_value)) (now : datetime) :
  spec.timestamps_consistent n ->
  spec.timestamps_consistent (snd (update_status n s e d now)) /\
  spec.timestamps_consistent (snd (mark_as_read n now)).
Proof.
  unfold spec.timestamps_consistent. intros [H1 H2].
  destruct n as [i u ty ti m st md ca sa da ra em di]. cbn in H1, H2.
  unfold update_status, mark_as_read.
  destruct st, s, d as [patch|]; cbn; try (destruct (bool_decide (patch = ∅)));
    cbn; (split; split; intros H; first
      [ destruct H as [H|[H|H]]; discriminate H
      | destruct H as [H|H]; discriminate H
      | eexists; reflexivity
      | apply H1; auto
      | apply H2; auto ]).
Qed.

Lemma timestamps_stay_consistent_witness :
  spec.timestamps_consistent
    (snd (update_status (pending "n1" "alice") SENT None None 1%Q)).
Proof.
  apply (timestamps_stay_consistent (pending "n1" "alice") SENT None None 1%Q).
  split; cbn; intros H; [destruct H as [H|[H|H]] | destruct H as [H|H]];
    discriminate H.
Defined.

Example marketing_mail_enabled_by_default :
  is_enabled_for_type (NotificationPreference_default "alice") MARKETING (Some "email")
  = true.
Proof. reflexivity. Qed.

(** X6. [is_enabled_for_type] never reads [marketing_notifications]: the
    attribute it looks up for a marketing notification is named
    [marketings], which the model does not have, so the type counts as
    enabled.  Two preference objects that differ in that flag only agree
    on every type and channel. *)
Theorem is_enabled_ignores_marketing_flag (p : NotificationPreference) (b : bool)
    (ty : NotificationType) (channel : option string) :
  is_enabled_for_type
    (mk_preference (p_user_id p) (transaction_alerts p) (security_alerts p)
       (mining_updates p) b (preferred_channel p) (channel_preferences p)
       (type_channel_matrix p)) ty channel
  = is_enabled_for_type p ty channel.
Proof. destruct ty; reflexivity. Qed.

(** A type is enabled on a channel only when the channel itself is
    enabled and the cell of the type and the channel in the matrix is
    true; the channel is the preferred one when none is given. *)
Theorem is_enabled_requires_channel_and_cell (p : NotificationPreference)
    (ty : NotificationType) (channel : option string) :
  is_enabled_for_type p ty channel = true ->
  let c := match channel with
           | Some c => if String.eqb c "" then preferred_channel p else c
           | None => preferred_channel p
           end in
  channel_preferences p !! c = Some true /\
  exists row, type_channel_matrix p !! NotificationType_value ty = Some row /\
              row !! c = Some true.
Proof.
  unfold is_enabled_for_type. cbn zeta.
  set (c := match channel with
            | Some c => if String.eqb c "" then preferred_channel p else c
            | None => preferred_channel p
            end).
  destruct (negb _); [discriminate|].
  destruct (channel_preferences p !! c) as [[|]|]; cbn; try discriminate.
  destruct (type_channel_matrix p !! NotificationType_value ty) as [row|]; cbn.
  - destruct (row !! c) as [[|]|] eqn:Hrow; cbn; try discriminate.
    intros _. split; [reflexivity|]. exists row. split; [reflexivity | exact Hrow].
  - rewrite lookup_empty. discriminate.
Qed.

Lemma is_enabled_requires_channel_and_cell_witness :
  channel_preferences (NotificationPreference_default "alice") !! "push" = Some true.
Proof.
  exact (proj1 (is_enabled_requires_channel_and_cell
                  (NotificationPreference_default "alice") TRANSACTION_ALERT
                  (Some "push") eq_refl)).
Defined.

End notification_model.

(** ** The rate limiter and the delivery statistics *)

Section limiter_and_stats.
Import email_service inputs.
Local Open Scope Q_scope.

Lemma acquire_keeps_capacity (rl : RateLimiter) (now : Q) :
  (Z.of_nat (length (requests rl)) <= max_per_hour rl)%Z ->
  (Z.of_nat (length (requests (snd (acquire rl now))))
   <= max_per_hour (snd (acquire rl now)))%Z.
Proof.
  intros H. destruct (acquire_config rl now) as (-> & _ & _).
  rewrite acquire_requests, acquire_decides. cbv zeta.
  pose proof (within_length now (window_size rl) (requests rl)) as Hlen.
  destruct (max_per_hour rl <=? _)%Z eqn:E1; cbn [negb andb].
  - rewrite app_nil_r. lia.
  - apply Z.leb_gt in E1.
    destruct (negb _); rewrite ?app_nil_r, ?length_app; cbn [length]; lia.
Qed.

(** X7. A limiter never holds more timestamps than [max_per_hour]: after
    any series of calls on a new limiter the recorded list has at most
    [max_per_hour] entries. *)
Theorem acquire_all_within_capacity (max_per_hour max_burst : Z) (times : list Q) :
  (0 <= max_per_hour)%Z ->
  (Z.of_nat (length (requests (snd (acquire_all (RateLimiter_init max_per_hour max_burst)
                                      times))))
   <= max_per_hour)%Z.
Proof.
  intros H0.
  assert (G : forall rl,
             (Z.of_nat (length (requests rl)) <= email_service.max_per_hour rl)%Z ->
             (Z.of_nat (length (requests (snd (acquire_all rl times))))
              <= email_service.max_per_hour rl)%Z).
  { induction times as [|t ts IH]; intros rl H; [exact H|].
    rewrite acquire_all_cons. cbn [snd].
    destruct (acquire_config rl t) as (Hm & _ & _). rewrite <- Hm.
    apply IH. apply acquire_keeps_capacity. exact H. }
  apply (G (RateLimiter_init max_per_hour max_burst)). cbn. exact H0.
Qed.

Lemma acquire_all_within_capacity_witness :
  (Z.of_nat (length (requests (snd (acquire_all (RateLimiter_init 2 5)
                                      [0%Q; 1%Q; 2%Q; 3%Q]))))
   <= 2)%Z.
Proof. apply (acquire_all_within_capacity 2 5 [0; 1; 2; 3]). discriminate. Defined.

(** X8. After a call at clock reading [now], every timestamp the limiter
    holds lies within the window that ends at [now]. *)
Theorem acquire_leaves_window_only (rl : RateLimiter) (now ts : Q) :
  0 <= window_size rl ->
  In ts (requests (snd (acquire rl now))) ->
  now - ts <= window_size rl.
Proof.
  intros Hw Hin. rewrite acquire_requests in Hin.
  apply in_app_or in Hin as [Hin|Hin].
  - apply within_In in Hin as [_ H]. exact H.
  - destruct (fst (acquire rl now)); [|destruct Hin].
    destruct Hin as [<-|[]]. lra.
Qed.

Lemma acquire_leaves_window_only_witness :
  4000 - 4000 <= window_size (RateLimiter_init 5 5).
Proof.
  apply (acquire_leaves_window_only (RateLimiter_init 5 5) 4000 4000).
  - vm_compute. discriminate.
  - vm_compute. left. reflexivity.
Defined.

(** A limiter whose [max_burst] is zero or negative denies every
    call, however empty its window is. *)
Theorem acquire_denies_without_burst (rl : RateLimiter) (now : Q) :
  (max_burst rl <= 0)%Z -> fst (acquire rl now) = false.
Proof.
  intros H. destruct (fst (acquire rl now)) eqn:E; [|reflexivity].
  apply acquire_allowed_burst_positive in E. lia.
Qed.

Lemma acquire_denies_without_burst_witness :
  fst (acquire (RateLimiter_init 20 0) 100) = false.
Proof. apply (acquire_denies_without_burst (RateLimiter_init 20 0) 100). discriminate. Defined.

Lemma errors_total_insert (m : gmap string Z) (k : string) :
  map_fold (fun _ v acc => (v + acc)%Z) 0%Z
    (<[ k := (default 0%Z (m !! k) + 1)%Z ]> m)
  = (map_fold (fun _ v acc => (v + acc)%Z) 0%Z m + 1)%Z.
Proof.
  assert (Hcomm : forall (m' : gmap string Z) (j1 j2 : string) (z1 z2 y : Z),
             j1 <> j2 -> m' !! j1 = Some z1 -> m' !! j2 = Some z2 ->
             (z1 + (z2 + y) = z2 + (z1 + y))%Z) by (intros; lia).
  destruct (m !! k) as [v|] eqn:Hk; cbn [default].
  - rewrite <- insert_delete_eq.
    rewrite map_fold_insert_L; [|apply Hcomm | apply lookup_delete_eq].
    rewrite (map_fold_delete_L _ _ k v m); [|apply Hcomm | exact Hk].
    change (Datatypes.id v) with v. lia.
  - rewrite map_fold_insert_L; [lia | apply Hcomm | exact Hk].
Qed.

(** X9. The error histogram of the delivery statistics adds up to the
    failure counter: if it does, it still does after [record_failure] and
    after [record_success]; and [record_failure] raises the counter by
    one while [record_success] leaves it. *)
Theorem stats_errors_add_up (s : DeliveryStats) (err : string) (now : datetime) :
  spec.errors_total s = failed s ->
  (spec.errors_total (record_failure s err now) = failed (record_failure s err now) /\
   failed (record_failure s err now) = (failed s + 1)%Z) /\
  (spec.errors_total (record_success s now) = failed (record_success s now) /\
   sent (record_success s now) = (sent s + 1)%Z).
Proof.
  unfold spec.errors_total. intros H. cbn [record_failure record_success errors failed sent].
  rewrite errors_total_insert, H. repeat split.
Qed.

Lemma stats_errors_add_up_witness :
  spec.errors_total (record_failure DeliveryStats_init "timeout" 1%Q) = 1%Z.
Proof.
  exact (proj1 (proj1 (stats_errors_add_up DeliveryStats_init "timeout" 1%Q eq_refl))).
Defined.

End limiter_and_stats.

(** ** The email sender *)

Section email_sender.
Import email_service inputs.

Lemma stats_record_rate_limiters (svc : EmailService) (to_email : string)
    (f : DeliveryStats -> DeliveryStats) :
  _rate_limiters (stats_record svc to_email f) = _rate_limiters svc.
Proof. unfold stats_record. destruct (_delivery_stats svc !! to_email); reflexivity. Qed.

Lemma send_email_limited_rate_limiters (svc : EmailService) (to_email : string)
    (rl : RateLimiter) (env : email_env) :
  _rate_limiters (snd (send_email_limited svc to_email rl env))
  = <[ to_email := snd (acquire rl (email_service.utcnow env)) ]> (_rate_limiters svc).
Proof.
  unfold send_email_limited.
  destruct (acquire rl (email_service.utcnow env)) as [allowed rl'].
  destruct allowed; cbn [negb snd]; [|reflexivity].
  set (svc1 := with_rate_limiters svc (<[ to_email := rl' ]> (_rate_limiters svc))).
  set (svc2 := match _delivery_stats svc1 !! to_email with
               | Some _ => svc1
               | None => with_delivery_stats svc1
                           (<[ to_email := DeliveryStats_init ]> (_delivery_stats svc1))
               end).
  assert (H2 : _rate_limiters svc2 = <[ to_email := rl' ]> (_rate_limiters svc)).
  { subst svc2. destruct (_delivery_stats svc1 !! to_email); reflexivity. }
  destruct (render_template env) as [content|e].
  - repeat match goal with
           | |- context [if ?c then _ else _] => destruct c
           end; cbn [snd]; rewrite stats_record_rate_limiters; exact H2.
  - rewrite reraise_rate_limiters. exact H2.
Qed.

(** X10. An attempt is charged to the limiter of the recipient whatever
    happens after the check: when rendering raises or both providers fail
    the limiter is left as [acquire] left it, the same as after a
    delivery, and the limiters of other recipients are not touched. *)
Theorem send_email_limited_charges_limiter (svc : EmailService) (to_email : string)
    (rl : RateLimiter) (env : email_env) :
  let svc' := snd (send_email_limited svc to_email rl env) in
  _rate_limiters svc' !! to_email = Some (snd (acquire rl (email_service.utcnow env))) /\
  (forall other, other <> to_email ->
                 _rate_limiters svc' !! other = _rate_limiters svc !! other).
Proof.
  cbn zeta. rewrite send_email_limited_rate_limiters. split.
  - apply lookup_insert_eq.
  - intros other Hne. apply lookup_insert_ne. congruence.
Qed.

Lemma send_email_body_rate_limiters_dom (svc : EmailService) (to_email : string)
    (env : email_env) :
  dom (_rate_limiters (snd (send_email_body svc to_email env)))
  = dom (_rate_limiters svc).
Proof.
  unfold send_email_body.
  destruct (validate_email env to_email) as [to'|e].
  - destruct (_rate_limiters svc !! to') as [rl|] eqn:Hrl.
    + rewrite send_email_limited_rate_limiters, dom_insert_L.
      assert (Hin : to' ∈ dom (_rate_limiters svc)) by (apply elem_of_dom; eauto).
      apply subseteq_union_1_L, singleton_subseteq_l, Hin.
    + destruct (RateLimiter_call RATE_LIMIT_CONFIG) as [rl|e1] eqn:Hc;
        [vm_compute in Hc; discriminate Hc|].
      rewrite reraise_rate_limiters. reflexivity.
  - destruct e; try (rewrite reraise_rate_limiters; reflexivity). reflexivity.
Qed.

Lemma retry_rate_limiters_dom (n k : nat) (svc : EmailService) (to_email : string)
    (envs : nat -> email_env) :
  dom (_rate_limiters (snd (retry n k svc to_email envs))) = dom (_rate_limiters svc).
Proof.
  revert k svc. induction n as [|n IH]; intros k svc; [reflexivity|].
  cbn [retry].
  pose proof (send_email_body_rate_limiters_dom svc to_email (envs k)) as H.
  destruct (send_email_body svc to_email (envs k)) as [[b|e] svc']; cbn [snd] in H |- *.
  - exact H.
  - destruct n as [|n']; [exact H|]. rewrite IH. exact H.
Qed.

(** X11. [send_email] never gives a recipient a limiter: the keyword
    arguments of [RATE_LIMIT_CONFIG] do not match the parameters of
    [RateLimiter], so the construction raises, and the set of recipients
    that have a limiter is the same after every call. *)
Theorem send_email_creates_no_limiter (svc : EmailService) (to_email : string)
    (envs : nat -> email_env) :
  dom (_rate_limiters (snd (send_email svc to_email envs))) = dom (_rate_limiters svc).
Proof. apply retry_rate_limiters_dom. Qed.

Lemma send_email_body_without_limiters (svc : EmailService) (to_email : string)
    (env : email_env) :
  _rate_limiters svc = ∅ ->
  fst (send_email_body svc to_email env) <> Return true.
Proof.
  intros He. unfold send_email_body.
  destruct (validate_email env to_email) as [to'|e].
  - rewrite He, lookup_empty.
    destruct (RateLimiter_call RATE_LIMIT_CONFIG) as [rl|e1] eqn:Hc;
      [vm_compute in Hc; discriminate Hc|].
    rewrite reraise_fst. discriminate.
  - destruct e; try (rewrite reraise_fst; discriminate). discriminate.
Qed.

(** X12. A service that starts without limiters, as the constructor
    leaves it, never delivers a message: no call of [send_email] returns
    true, and the service still has no limiter afterwards. *)
Theorem send_email_never_delivers_without_limiters (svc : EmailService)
    (to_email : string) (envs : nat -> email_env) :
  _rate_limiters svc = ∅ ->
  fst (send_email svc to_email envs) <> Return true /\
  _rate_limiters (snd (send_email svc to_email envs)) = ∅.
Proof.
  intros He. split.
  - unfold send_email.
    generalize RETRY_CONFIG_max_attempts 0%nat. intros n. revert svc He.
    induction n as [|n IH]; intros svc He k; [discriminate|].
    cbn [retry].
    pose proof (send_email_body_without_limiters svc to_email (envs k) He) as Hb.
    pose proof (send_email_body_rate_limiters_dom svc to_email (envs k)) as Hd.
    destruct (send_email_body svc to_email (envs k)) as [[b|e] svc'];
      cbn [fst snd] in Hb, Hd |- *.
    + exact Hb.
    + destruct n as [|n']; [discriminate|].
      apply IH. apply dom_empty_iff_L. rewrite Hd, He. apply dom_empty_L.
  - apply dom_empty_iff_L. rewrite send_email_creates_no_limiter, He.
    apply dom_empty_L.
Qed.

Lemma send_email_never_delivers_without_limiters_witness :
  fst (send_email fresh_service "user@example.com" (fun _ => working_env))
  <> Return true.
Proof.
  exact (proj1 (send_email_never_delivers_without_limiters fresh_service
                  "user@example.com" (fun _ => working_env) eq_refl)).
Defined.

End email_sender.


(** ** The SMS sender *)

Section sms_sender.
Import sms_service.
Local Open Scope Q_scope.

(** X13. The counters are independent: a check for one recipient and type
    leaves the limits table, the counters of every other recipient and
    the counters of the recipient's other types as they were. *)
Theorem check_rate_limit_touches_one_counter (svc : SMSService)
    (phone_number notification_type : string) (now : Q) :
  let svc' := snd (_check_rate_limit svc phone_number notification_type now) in
  _rate_limits svc' = _rate_limits svc /\
  (forall other, other <> phone_number ->
                 _rate_tracking svc' !! other = _rate_tracking svc !! other) /\
  (forall other, other <> notification_type ->
                 spec.sms_tracking svc' phone_number other
                 = spec.sms_tracking svc phone_number other).
Proof.
  cbn zeta. unfold _check_rate_limit, spec.sms_tracking.
  destruct (_rate_limits svc !! notification_type) as [[max_count window_seconds]|];
    [|repeat split].
  destruct (_rate_tracking svc !! phone_number) as [per|] eqn:Hp.
  - destruct (per !! notification_type) as [tr|] eqn:Ht;
      destruct (Qle_bool _ _); destruct (max_count <=? _)%Z; cbn;
        (split; [reflexivity|]; split;
         [intros other Hne; apply lookup_insert_ne; congruence
         |intros other Hne; rewrite lookup_insert_eq; cbn;
          rewrite ?lookup_insert_ne by congruence; rewrite ?Hp; reflexivity]).
  - rewrite lookup_singleton_eq.
    destruct (Qle_bool _ _); destruct (max_count <=? _)%Z; cbn;
      (split; [reflexivity|]; split;
       [intros other Hne; apply lookup_insert_ne; congruence
       |intros other Hne; rewrite lookup_insert_eq; cbn;
        rewrite ?lookup_insert_ne by congruence;
        rewrite ?lookup_singleton_ne by congruence; rewrite ?Hp; reflexivity]).
Qed.

(** One check inside the current window: allowed exactly while the
    counter is below the limit; an allowed check counts one up, a denied
    one changes nothing. *)
Lemma check_rate_limit_in_window (svc : SMSService)
    (phone_number notification_type : string) (now : Q)
    (max_count : Z) (window_seconds : Q) (tr : tracking) :
  _rate_limits svc !! notification_type = Some (max_count, window_seconds) ->
  spec.sms_tracking svc phone_number notification_type = Some tr ->
  now - window_start tr <= window_seconds ->
  let '(allowed, svc') := _check_rate_limit svc phone_number notification_type now in
  allowed = (count tr <? max_count)%Z /\
  _rate_limits svc' = _rate_limits svc /\
  spec.sms_tracking svc' phone_number notification_type
  = Some (if allowed then mk_tracking (count tr + 1) (window_start tr) else tr).
Proof.
  intros Hl Ht Hw. unfold spec.sms_tracking in Ht |- *. unfold _check_rate_limit.
  rewrite Hl.
  destruct (_rate_tracking svc !! phone_number) as [per|] eqn:Hp; [|discriminate Ht].
  cbn in Ht. rewrite Ht.
  apply Qle_bool_iff in Hw. rewrite Hw.
  rewrite (Z.ltb_antisym max_count (count tr)).
  destruct (max_count <=? count tr)%Z; cbn;
    (split; [reflexivity|]; split; [reflexivity|]);
    rewrite lookup_insert_eq; cbn; rewrite lookup_insert_eq; reflexivity.
Qed.

Lemma check_all_cons (svc : SMSService) (phone_number notification_type : string)
    (t : Q) (ts : list Q) :
  check_all svc phone_number notification_type (t :: ts)
  = (fst (_check_rate_limit svc phone_number notification_type t)
       :: fst (check_all (snd (_check_rate_limit svc phone_number notification_type t))
                 phone_number notification_type ts),
     snd (check_all (snd (_check_rate_limit svc phone_number notification_type t))
            phone_number notification_type ts)).
Proof.
  cbn [check_all].
  destruct (_check_rate_limit svc phone_number notification_type t) as [b s1].
  cbn [fst snd].
  destruct (check_all s1 phone_number notification_type ts) as [bs s2]. reflexivity.
Qed.

(** X14. The quota of a window: with the counter of a recipient and type
    at [c], of a series of checks that all fall in the current window the
    [j]-th (from 0) is allowed exactly when [c + j] is below the limit,
    so at most [max_count - c] of them are allowed. *)
Theorem check_all_allows_up_to_limit (times : list Q) (svc : SMSService)
    (phone_number notification_type : string)
    (max_count : Z) (window_seconds : Q) (tr : tracking) :
  _rate_limits svc !! notification_type = Some (max_count, window_seconds) ->
  spec.sms_tracking svc phone_number notification_type = Some tr ->
  (forall t, In t times -> t - window_start tr <= window_seconds) ->
  fst (check_all svc phone_number notification_type times)
  = List.map (fun j => (count tr + Z.of_nat j <? max_count)%Z) (seq 0 (length times)).
Proof.
  revert svc tr. induction times as [|t ts IH]; intros svc tr Hl Ht Hw; [reflexivity|].
  rewrite check_all_cons. cbn [fst length seq List.map].
  pose proof (check_rate_limit_in_window svc phone_number notification_type t
                max_count window_seconds tr Hl Ht (Hw t (or_introl eq_refl))) as H.
  destruct (_check_rate_limit svc phone_number notification_type t) as [allowed svc'].
  destruct H as (Ha & Hl' & Ht'). cbn [fst snd].
  rewrite Z.add_0_r, <- Ha. f_equal.
  assert (Hl2 : _rate_limits svc' !! notification_type = Some (max_count, window_seconds))
    by (rewrite Hl'; exact Hl).
  rewrite (IH svc' _ Hl2 Ht').
  - rewrite <- seq_shift, List.map_map. apply List.map_ext. intros j.
    destruct allowed; cbn [count].
    + f_equal. lia.
    + symmetry in Ha. apply Z.ltb_ge in Ha.
      destruct (count tr + Z.of_nat j <? max_count)%Z eqn:E1;
        destruct (count tr + Z.of_nat (S j) <? max_count)%Z eqn:E2;
        try reflexivity;
        [apply Z.ltb_lt in E1 | apply Z.ltb_lt in E2]; lia.
  - intros u Hu. destruct allowed; cbn [window_start]; apply Hw; right; exact Hu.
Qed.

Lemma check_all_allows_up_to_limit_witness :
  fst (check_all
         (mk_sms_service {[ "transaction_alert" := (2%Z, 3600) ]}
            {[ "+12025550100" := {[ "transaction_alert" := mk_tracking 0 0 ]} ]})
         "+12025550100" "transaction_alert" [1; 2; 3])
  = [true; true; false].
Proof.
  rewrite (check_all_allows_up_to_limit [1; 2; 3]
             (mk_sms_service {[ "transaction_alert" := (2%Z, 3600) ]}
                {[ "+12025550100" := {[ "transaction_alert" := mk_tracking 0 0 ]} ]})
             "+12025550100" "transaction_alert" 2 3600 (mk_tracking 0 0)).
  - reflexivity.
  - reflexivity.
  - reflexivity.
  - intros t H. repeat (destruct H as [<-|H]; [vm_compute; discriminate|]). destruct H.
Defined.

(** X15. When the window of a counter has run out, the next check starts
    a new window at its own clock reading: it is allowed exactly when the
    limit is positive and leaves the counter at one (at zero when
    denied). *)
Theorem check_rate_limit_new_window (svc : SMSService)
    (phone_number notification_type : string) (now : Q)
    (max_count : Z) (window_seconds : Q) (tr : tracking) :
  _rate_limits svc !! notification_type = Some (max_count, window_seconds) ->
  spec.sms_tracking svc phone_number notification_type = Some tr ->
  window_seconds < now - window_start tr ->
  let '(allowed, svc') := _check_rate_limit svc phone_number notification_type now in
  allowed = (0 <? max_count)%Z /\
  spec.sms_tracking svc' phone_number notification_type
  = Some (mk_tracking (if allowed then 1 else 0) now).
Proof.
  intros Hl Ht Hw. unfold spec.sms_tracking in Ht |- *. unfold _check_rate_limit.
  rewrite Hl.
  destruct (_rate_tracking svc !! phone_number) as [per|] eqn:Hp; [|discriminate Ht].
  cbn in Ht. rewrite Ht.
  destruct (Qle_bool (now - window_start tr) window_seconds) eqn:E.
  { apply Qle_bool_iff in E. lra. }
  cbn [count window_start].
  rewrite (Z.ltb_antisym max_count 0).
  destruct (max_count <=? 0)%Z; cbn;
    (split; [reflexivity|]);
    rewrite lookup_insert_eq; cbn; rewrite lookup_insert_eq; reflexivity.
Qed.

Lemma check_rate_limit_new_window_witness :
  let '(allowed, svc') :=
    _check_rate_limit
      (mk_sms_service {[ "transaction_alert" := (2%Z, 3600) ]}
         {[ "+12025550100" := {[ "transaction_alert" := mk_tracking 2 0 ]} ]})
      "+12025550100" "transaction_alert" 4000 in
  allowed = true /\
  spec.sms_tracking svc' "+12025550100" "transaction_alert"
  = Some (mk_tracking 1 4000).
Proof.
  pose proof (check_rate_limit_new_window
                (mk_sms_service {[ "transaction_alert" := (2%Z, 3600) ]}
                   {[ "+12025550100" := {[ "transaction_alert" := mk_tracking 2 0 ]} ]})
                "+12025550100" "transaction_alert" 4000 2 3600 (mk_tracking 2 0)
                eq_refl eq_refl) as H.
  apply H. vm_compute. reflexivity.
Defined.

(** What [send_sms] does to the service does not depend on the
    provider: a number that does not parse or is not valid leaves the
    service as it was, and for a valid number the service is left as the
    rate-limit check left it, so a message the provider rejects still
    counts against the quota. *)
Theorem send_sms_state (svc : SMSService) (phone_number message notification_type : string)
    (encrypt_content : bool) (env : sms_env) :
  snd (send_sms svc phone_number message notification_type encrypt_content env)
  = match phonenumbers_parse env phone_number with
    | Return _ =>
        if is_valid_number env
        then snd (_check_rate_limit svc phone_number notification_type
                    (sms_service.utcnow env))
        else svc
    | Raise _ => svc
    end.
Proof.
  unfold send_sms.
  destruct (phonenumbers_parse env phone_number) as [[]|e]; [|reflexivity].
  destruct (is_valid_number env); cbn [negb]; [|reflexivity].
  destruct (_check_rate_limit svc phone_number notification_type
              (sms_service.utcnow env)) as [allowed svc'].
  destruct allowed; cbn [negb snd].
  - destruct (create_async env phone_number _); reflexivity.
  - reflexivity.
Qed.

End sms_sender.


(** ** The device registry and the push sender *)

Section push_registry.
Import push_notification inputs.
Variable P : providers.

(** X16. [register_device] keeps at most five device records per user:
    after a successful registration the list of the user has at most five
    entries, however long it was; a refused registration changes nothing;
    and the lists of other users are never touched. *)
Theorem register_device_at_most_five (w : world) (user_id device_token platform : string)
    (now : Q) :
  let '(ok, w') := register_device w user_id device_token platform now in
  (if ok then (length (lrange (redis w') user_id) <= 5)%nat else w' = w) /\
  (forall other, other <> user_id -> lrange (redis w') other = lrange (redis w) other).
Proof.
  unfold register_device.
  destruct (negb _); [split; reflexivity|].
  destruct (sismember _ _ _); [split; reflexivity|].
  split.
  - unfold lrange at 1. cbn [redis lpush device_tokens].
    rewrite lookup_insert_eq. cbn [default from_option Datatypes.id length].
    destruct (5 <=? length (lrange (redis w) user_id))%nat eqn:E.
    + apply Nat.leb_le in E. unfold lrange at 1, ltrim_last4.
      cbn [device_tokens]. rewrite lookup_insert_eq. cbn. rewrite length_drop. lia.
    + apply Nat.leb_gt in E. lia.
  - intros other Hne. unfold lrange. cbn [redis lpush device_tokens].
    rewrite lookup_insert_ne by congruence.
    destruct (5 <=? _)%nat; [|reflexivity].
    unfold ltrim_last4. cbn [device_tokens].
    rewrite lookup_insert_ne by congruence. reflexivity.
Qed.

(** X17. A registration is accepted exactly when the platform is [ios] or
    [android] and the token is not blacklisted for it.  The new record
    goes to the head of the list; when the user already has five or more
    records, the four at the end of the list, the oldest ones, are kept
    and the more recent ones are dropped. *)
Theorem register_device_result (w : world) (user_id device_token platform : string)
    (now : Q) :
  let '(ok, w') := register_device w user_id device_token platform now in
  ok = (String.eqb platform "ios" || String.eqb platform "android")
       && negb (sismember (redis w) platform device_token) /\
  (ok = true ->
   let l := lrange (redis w) user_id in
   lrange (redis w') user_id
   = mk_token device_token platform now now "active"
       :: (if (5 <=? length l)%nat then drop (length l - 4) l else l)).
Proof.
  unfold register_device.
  destruct (String.eqb platform "ios" || String.eqb platform "android");
    cbn [negb andb]; [|split; [reflexivity | discriminate]].
  destruct (sismember (redis w) platform device_token);
    cbn [negb]; [split; [reflexivity | discriminate]|].
  split; [reflexivity|]. intros _. cbn zeta.
  unfold lrange at 1. cbn [redis lpush device_tokens].
  rewrite lookup_insert_eq. cbn [default from_option Datatypes.id]. f_equal.
  destruct (5 <=? length (lrange (redis w) user_id))%nat; [|reflexivity].
  unfold lrange at 1, ltrim_last4. cbn [device_tokens].
  rewrite lookup_insert_eq. reflexivity.
Qed.

(** X18. A device that was just registered is sent to: after a successful
    registration the token is among the active tokens of its platform
    that the next [send_notification] for the user collects. *)
Theorem registered_token_is_active (w : world) (user_id device_token platform : string)
    (now : Q) :
  fst (register_device w user_id device_token platform now) = true ->
  In device_token
    (active_tokens (String.eqb platform "android")
       (lrange (redis (snd (register_device w user_id device_token platform now)))
          user_id)).
Proof.
  intros Hok.
  pose proof (register_device_result w user_id device_token platform now) as H.
  destruct (register_device w user_id device_token platform now) as [ok w'].
  cbn [fst snd] in Hok |- *. subst ok. destruct H as [_ H].
  rewrite (H eq_refl). unfold active_tokens. cbn [List.filter tstatus push_notification.platform].
  rewrite Bool.eqb_reflx. cbn. left. reflexivity.
Qed.

Lemma registered_token_is_active_witness :
  In "tok-2"
    (active_tokens false
       (lrange (redis (snd (register_device one_ios_device "alice" "tok-2" "ios" 9%Q)))
          "alice")).
Proof.
  exact (registered_token_is_active one_ios_device "alice" "tok-2" "ios" 9%Q eq_refl).
Defined.

Lemma fcm_loop_calls (fuel attempt : nat) (tokens : list string) (w : world) :
  exists k, (k <= fuel)%nat /\
    fcm_calls (snd (fcm_loop P fuel attempt tokens w))
    = (fcm_calls w ++ replicate k (take _batch_size tokens))%list.
Proof.
  revert attempt w. induction fuel as [|fuel IH]; intros attempt w.
  - exists 0%nat. split; [lia|]. cbn. rewrite app_nil_r. reflexivity.
  - cbn [fcm_loop].
    destruct (fcm_reply P (length (fcm_calls w)) (take _batch_size tokens))
      as [responses|e].
    + exists 1%nat. split; [lia | reflexivity].
    + destruct (attempt =? _max_retries - 1)%nat.
      * exists 1%nat. split; [lia | reflexivity].
      * destruct (IH (S attempt)
                    (mk_world (redis w) (apns_calls w)
                       (fcm_calls w ++ [take _batch_size tokens]))) as (k & Hk & E).
        exists (S k). split; [lia|]. rewrite E. cbn [fcm_calls replicate].
        rewrite <- app_assoc. reflexivity.
Qed.

Lemma apns_loop_calls (fuel attempt : nat) (tok : string) (w : world) :
  (attempt + fuel = _max_retries)%nat -> (0 < fuel)%nat ->
  exists k,
    (1 <= k <= fuel)%nat /\
    apns_calls (snd (apns_loop P fuel attempt tok w))
    = (apns_calls w ++ replicate k tok)%list /\
    fcm_calls (snd (apns_loop P fuel attempt tok w)) = fcm_calls w /\
    match fst (apns_loop P fuel attempt tok w) with
    | Return o => exists entry, o = Some entry /\ fst (fst entry) = tok
    | Raise e => apns_has_BadDeviceToken P = false /\ k = 1%nat
    end.
Proof.
  revert attempt w. induction fuel as [|fuel IH]; intros attempt w Hsum Hpos; [lia|].
  cbn [apns_loop].
  destruct (apns_reply P (length (apns_calls w)) tok) as [[]|e].
  - exists 1%nat. cbn. repeat split; try lia. eexists. split; reflexivity.
  - destruct (apns_has_BadDeviceToken P) eqn:Hcls; cbn [negb].
    2:{ exists 1%nat. cbn. repeat split; lia. }
    assert (Hother :
              forall r,
                r = (if (attempt =? _max_retries - 1)%nat
                     then (Return (Some (tok, false, Some (str_exn e))),
                           mk_world (redis w) (apns_calls w ++ [tok]) (fcm_calls w))
                     else apns_loop P fuel (S attempt) tok
                            (mk_world (redis w) (apns_calls w ++ [tok]) (fcm_calls w))) ->
                exists k,
                  (1 <= k <= S fuel)%nat /\
                  apns_calls (snd r) = (apns_calls w ++ replicate k tok)%list /\
                  fcm_calls (snd r) = fcm_calls w /\
                  match fst r with
                  | Return o => exists entry, o = Some entry /\ fst (fst entry) = tok
                  | Raise e => true = false /\ k = 1%nat
                  end).
    { intros r ->. destruct (attempt =? _max_retries - 1)%nat eqn:E.
      - exists 1%nat. cbn. repeat split; try lia. eexists. split; reflexivity.
      - apply Nat.eqb_neq in E. unfold _max_retries in *.
        destruct (IH (S attempt)
                    (mk_world (redis w) (apns_calls w ++ [tok]) (fcm_calls w)))
          as (k & Hk & H3 & H4 & H1); [lia | lia |].
        exists (S k). split; [lia|]. split; [|split; [exact H4|]].
        + rewrite H3. cbn [apns_calls replicate]. rewrite <- app_assoc. reflexivity.
        + destruct (fst (apns_loop P fuel (S attempt) tok _)); [exact H1|].
          destruct H1 as [H1 _]. discriminate H1. }
    destruct e; try exact (Hother _ eq_refl).
    exists 1%nat. cbn. repeat split; try lia. eexists. split; reflexivity.
Qed.

Lemma apns_tokens_calls (tokens : list string) :
  forall (results : list (string * bool * option string)) (w : world),
  exists ks,
    Forall (fun k => (1 <= k <= 3)%nat) ks /\
    apns_calls (snd (apns_tokens P tokens results w))
    = (apns_calls w ++ concat (zip_with replicate ks tokens))%list /\
    fcm_calls (snd (apns_tokens P tokens results w)) = fcm_calls w /\
    match fst (apns_tokens P tokens results w) with
    | Return res =>
        length ks = length tokens /\
        List.map (fun x => fst (fst x)) res
        = (List.map (fun x => fst (fst x)) results ++ tokens)%list
    | Raise e =>
        apns_has_BadDeviceToken P = false /\
        (length ks <= length tokens)%nat /\ last ks = Some 1%nat
    end.
Proof.
  induction tokens as [|tok rest IH]; intros results w.
  - exists []. cbn. rewrite !app_nil_r. repeat split. constructor.
  - cbn [apns_tokens].
    destruct (apns_loop_calls _max_retries 0 tok w eq_refl ltac:(unfold _max_retries; lia))
      as (k & Hk & H3 & H4 & H1).
    destruct (apns_loop P _max_retries 0 tok w) as [[o|e] w1]; cbn [fst snd] in H1, H3, H4.
    + destruct H1 as (entry & -> & H2). change (option_list (Some entry)) with [entry].
      destruct (IH (results ++ [entry])%list w1) as (ks & F & G2 & G5 & G).
      exists (k :: ks).
      split. { constructor; [unfold _max_retries in Hk; lia | exact F]. }
      split. { rewrite G2, H3. cbn [zip_with concat]. rewrite <- !app_assoc.
               reflexivity. }
      split. { rewrite G5. exact H4. }
      destruct (fst (apns_tokens P rest (results ++ [entry])%list w1)) as [res|e].
      * destruct G as [G0 G1]. split; [cbn [length]; lia|].
        rewrite G1, List.map_app. cbn [List.map]. rewrite H2, <- app_assoc.
        reflexivity.
      * destruct G as (Gc & Gl & Glast). split; [exact Gc|].
        split; [cbn [length]; lia|].
        destruct ks as [|k' ks']; [discriminate Glast | exact Glast].
    + destruct H1 as [Hcls ->]. exists [1%nat]. cbn [fst snd].
      split. { constructor; [lia | constructor]. }
      split. { rewrite H3. cbn. rewrite ?app_nil_r. reflexivity. }
      split; [exact H4|]. split; [exact Hcls|]. split; [cbn; lia | reflexivity].
Qed.

(** What one [_send_apns] does with the list it is given, entry by
    entry: [ks] holds the number of calls made for each entry reached. *)
Lemma _send_apns_calls (tokens : list string) (w : world) :
  let r := fst (_send_apns P tokens w) in
  exists ks,
    Forall (fun k => (1 <= k <= 3)%nat) ks /\
    apns_calls (snd (_send_apns P tokens w))
    = (apns_calls w ++ concat (zip_with replicate ks tokens))%list /\
    fcm_calls (snd (_send_apns P tokens w)) = fcm_calls w /\
    ((error r = None /\ length ks = length tokens /\
      List.map (fun x => fst (fst x)) (results r) = tokens)
     \/
     (apns_has_BadDeviceToken P = false /\
      error r <> None /\ success r = false /\ results r = [] /\
      (length ks <= length tokens)%nat /\ last ks = Some 1%nat)).
Proof.
  cbn zeta. destruct (apns_tokens_calls tokens [] w) as (ks & F & H2 & H5 & H).
  exists ks. unfold _send_apns.
  destruct (apns_tokens P tokens [] w) as [[res|e] w']; cbn [fst snd] in *.
  - split; [exact F|]. split; [exact H2|]. split; [exact H5|]. left.
    destruct H as [H0 H1]. repeat split; assumption.
  - split; [exact F|]. split; [exact H2|]. split; [exact H5|]. right.
    destruct H as (Hc & Hl & Hlast). repeat split; try assumption. discriminate.
Qed.

(** X19. [_send_apns] goes through the entries of the token list in
    order, a token listed twice being sent twice.  For each entry it
    reaches it calls APNS at least once and at most three times, all
    calls for one entry before the first for the next, and it calls for
    nothing else: the calls are [k1] times the first entry, then [k2]
    times the second, and so on, every [k] between 1 and 3.  Either no
    exception leaves the loops: every entry is reached, there is no
    error and [results] has exactly one entry per entry of the list, in
    order.  Or [aioapns] has no [BadDeviceToken] class and a send
    raised: that send was the first for its entry and the last call
    made, no later entry is reached, and the response has an error, no
    result and success false. *)
Theorem _send_apns_one_result_per_token (tokens : list string) (w : world) :
  let r := fst (_send_apns P tokens w) in
  exists ks,
    Forall (fun k => (1 <= k <= 3)%nat) ks /\
    apns_calls (snd (_send_apns P tokens w))
    = (apns_calls w ++ concat (zip_with replicate ks tokens))%list /\
    ((error r = None /\ length ks = length tokens /\
      List.map (fun x => fst (fst x)) (results r) = tokens)
     \/
     (apns_has_BadDeviceToken P = false /\
      error r <> None /\ success r = false /\ results r = [] /\
      (length ks <= length tokens)%nat /\ last ks = Some 1%nat)).
Proof.
  cbn zeta. destruct (_send_apns_calls tokens w) as (ks & F & H2 & _ & H).
  exists ks. split; [exact F|]. split; [exact H2 | exact H].
Qed.

(** X20. [_send_fcm] sends the first five hundred tokens only: it calls
    FCM at least once and at most three times, each time with the same
    batch, the first 500 tokens of the list; later tokens are in no
    call. *)
Theorem _send_fcm_batches (tokens : list string) (w : world) :
  exists k, (k <= 3)%nat /\
    fcm_calls (snd (_send_fcm P tokens w))
    = (fcm_calls w ++ replicate k (take 500 tokens))%list /\
    apns_calls (snd (_send_fcm P tokens w)) = apns_calls w.
Proof.
  unfold _send_fcm.
  destruct (fcm_loop_calls _max_retries 0 tokens w) as (k & Hk & E).
  exists k. split; [exact Hk|]. split; [exact E|].
  pose proof (fcm_loop_effect P _max_retries 0 tokens w) as H.
  destruct (fcm_loop P _max_retries 0 tokens w) as [resp w']. apply H.
Qed.

Lemma foldl_blacklists_failed (res : list (string * bool * option string)) :
  forall (r : Redis) (x : string * bool * option string),
    In x res -> snd (fst x) = false ->
    fst (fst x) ∈ smembers
      (foldl (fun r (x : string * bool * option string) =>
                if snd (fst x) then r else sadd r "android" (fst (fst x))) r res)
      "android".
Proof.
  induction res as [|y res IH]; intros r x Hin Hx; [destruct Hin|].
  cbn [foldl]. destruct Hin as [->|Hin].
  - rewrite Hx. apply (blacklist_le_foldl res (sadd r "android" (fst (fst x))) "android").
    apply elem_of_smembers_sadd.
  - apply IH; assumption.
Qed.

(** X21. [_send_fcm] blacklists every token FCM reports a failure for,
    for whatever reason: when the first call returns a batch response,
    each token of the batch whose result is a failure is in the Android
    blacklist afterwards. *)
Theorem _send_fcm_blacklists_failed (tokens : list string) (w : world)
    (responses : nat -> bool) (idx : nat) (tok : string) :
  fcm_reply P (length (fcm_calls w)) (take 500 tokens) = Return responses ->
  take 500 tokens !! idx = Some tok ->
  responses idx = false ->
  tok ∈ smembers (redis (snd (_send_fcm P tokens w))) "android".
Proof.
  intros Hreply Hidx Hfail. unfold _send_fcm, _max_retries. cbn [fcm_loop].
  unfold _batch_size. rewrite Hreply. cbn [snd redis].
  apply (foldl_blacklists_failed _ _ (tok, responses idx, None)); [|exact Hfail].
  apply list_elem_of_In, list_elem_of_lookup. exists idx.
  rewrite list_lookup_imap, Hidx. reflexivity.
Qed.

End push_registry.

Lemma _send_fcm_blacklists_failed_witness :
  "tok-a" ∈ push_notification.smembers
    (push_notification.redis
       (snd (push_notification._send_fcm inputs.fcm_fails_apns_accepts ["tok-a"]
               inputs.two_platforms))) "android".
Proof.
  apply (_send_fcm_blacklists_failed inputs.fcm_fails_apns_accepts ["tok-a"]
           inputs.two_platforms (fun _ => false) 0 "tok-a");
    reflexivity.
Defined.

Section push_send.
Import push_notification inputs.
Variable P : providers.

Lemma on_exception_not_true (n : Notification) (e : exn) (now : Q) (w : world) :
  fst (fst (on_exception n e now w)) <> Return true.
Proof.
  unfold on_exception.
  destruct (update_status n FAILED (Some (str_exn e)) None now) as [[[]|e'] n'];
    discriminate.
Qed.

Lemma sent_only_from_pending (s : NotificationStatus) :
  validate_transition s SENT = true -> s = PENDING.
Proof. destruct s; cbn; intros H; try discriminate H; reflexivity. Qed.

(** X22. [send_notification] answers true only for a notification that
    was pending, and it then leaves it sent: for a notification in any
    other status the answer is never true, whatever the providers
    accept. *)
Theorem send_notification_true_only_when_pending (n : Notification) (now : Q)
    (w : world) :
  fst (fst (send_notification P n now w)) = Return true ->
  status n = PENDING /\ status (snd (fst (send_notification P n now w))) = SENT.
Proof.
  destruct (lrange (redis w) (user_id n)) as [|d ds] eqn:Hl.
  - unfold send_notification. rewrite Hl.
    destruct (update_status n FAILED (Some "No registered devices") None now)
      as [[[]|e] n']; [discriminate|].
    intros H. destruct (on_exception_not_true _ _ _ _ H).
  - rewrite (send_notification_steps P n now w d ds Hl). cbn zeta.
    match goal with
    | |- context [if ?c then update_status _ SENT _ (Some ?i) _ else _] =>
        set (ok := c); set (info := i)
    end.
    destruct ok.
    + destruct (validate_transition (status n) SENT) eqn:Hv.
      * pose proof (update_status_valid n SENT None (Some info) now Hv) as [H1 H2].
        destruct (update_status n SENT None (Some info) now) as [r n'].
        cbn [fst snd] in H1, H2. subst r. cbn [fst snd]. intros _.
        split; [apply sent_only_from_pending, Hv | exact H2].
      * rewrite (update_status_invalid n SENT None (Some info) now Hv).
        intros H. destruct (on_exception_not_true _ _ _ _ H).
    + destruct (update_status n FAILED (Some "Partial or complete delivery failure")
                  (Some info) now) as [[[]|e] n']; [discriminate|].
      intros H. destruct (on_exception_not_true _ _ _ _ H).
Qed.

(** X23. [send_notification] does not contain its own failure for a
    notification that has already failed: every update of a failed
    notification is refused, the one of the [except] clause too, so the
    call raises [ValueError] and leaves the notification as it was. *)
Theorem send_notification_raises_when_failed (n : Notification) (now : Q) (w : world) :
  status n = FAILED ->
  exists msg,
    fst (fst (send_notification P n now w)) = Raise (ValueError msg) /\
    snd (fst (send_notification P n now w)) = n.
Proof.
  intros Hs.
  assert (Hup : forall s e d,
             update_status n s e d now
             = (Raise (spec.InvalidStateTransition FAILED s), n)).
  { intros s e d. rewrite <- Hs at 1. apply update_status_invalid.
    rewrite Hs. apply failed_is_terminal. }
  assert (Hex : forall e, on_exception n e now w
                          = (Raise (spec.InvalidStateTransition FAILED FAILED), n, w)).
  { intros e. unfold on_exception. rewrite Hup. reflexivity. }
  destruct (lrange (redis w) (user_id n)) as [|d ds] eqn:Hl.
  - unfold send_notification. rewrite Hl, Hup, Hex. eexists. split; reflexivity.
  - rewrite (send_notification_steps P n now w d ds Hl). cbn zeta.
    match goal with
    | |- context [if ?c then _ else _] => destruct c
    end; rewrite Hup; unfold on_exception; rewrite Hup; eexists; split; reflexivity.
Qed.

(** X24. Without device records no provider is called: the store and the
    call logs are what they were, and a notification that has not failed
    becomes failed with the message "No registered devices". *)
Theorem send_notification_without_devices (n : Notification) (now : Q) (w : world) :
  lrange (redis w) (user_id n) = [] ->
  snd (send_notification P n now w) = w /\
  (status n <> FAILED ->
   fst (fst (send_notification P n now w)) = Return false /\
   status (snd (fst (send_notification P n now w))) = FAILED /\
   error_message (snd (fst (send_notification P n now w)))
   = Some "No registered devices").
Proof.
  intros Hl. split.
  - rewrite send_notification_world, Hl. reflexivity.
  - intros Hs. unfold send_notification. rewrite Hl.
    unfold update_status.
    destruct (status n) eqn:E; try (destruct (Hs eq_refl)); cbn; repeat split.
Qed.

(** X25. A send calls the providers only for the active tokens of the
    user: FCM at most three times, each time with the first 500 active
    Android tokens, and not at all when there is none; APNS only for
    entries of the list of active iOS tokens, in their order, at least
    once and at most three times for each entry it reaches (a token
    listed twice is sent for each listing), the calls for one entry
    before those for the next.  It reaches every entry, unless [aioapns]
    has no [BadDeviceToken] class and a send raised: that send is then
    the last call. *)
Theorem send_notification_calls (n : Notification) (now : Q) (w : world) :
  let tokens_data := lrange (redis w) (user_id n) in
  let android := active_tokens true tokens_data in
  let ios := active_tokens false tokens_data in
  let w' := snd (send_notification P n now w) in
  exists k ks,
    (k <= 3)%nat /\ (android = [] -> k = 0%nat) /\
    fcm_calls w' = (fcm_calls w ++ replicate k (take 500 android))%list /\
    (length ks <= length ios)%nat /\
    Forall (fun j => (1 <= j <= 3)%nat) ks /\
    apns_calls w' = (apns_calls w ++ concat (zip_with replicate ks ios))%list /\
    (length ks = length ios \/
     (apns_has_BadDeviceToken P = false /\ last ks = Some 1%nat)).
Proof.
  cbn zeta. rewrite send_notification_world.
  destruct (lrange (redis w) (user_id n)) as [|d ds].
  { exists 0%nat, []. cbn. rewrite !app_nil_r.
    split; [lia|]. split; [reflexivity|]. split; [reflexivity|].
    split; [lia|]. split; [constructor|]. split; [reflexivity|].
    left. reflexivity. }
  cbn zeta.
  set (android := active_tokens true (d :: ds)).
  set (ios := active_tokens false (d :: ds)).
  assert (H1 : exists k,
             (k <= 3)%nat /\ (android = [] -> k = 0%nat) /\
             fcm_calls match android with [] => w | _ => snd (_send_fcm P android w) end
             = (fcm_calls w ++ replicate k (take 500 android))%list /\
             apns_calls match android with [] => w | _ => snd (_send_fcm P android w) end
             = apns_calls w).
  { destruct android as [|ta tas] eqn:Ea.
    - exists 0%nat. cbn. rewrite app_nil_r. repeat split; lia.
    - destruct (_send_fcm_batches P (ta :: tas) w) as (k & Hk & E1 & E2).
      exists k. repeat split; try assumption. discriminate. }
  destruct H1 as (k & Hk & Hk0 & E1 & E2).
  set (w1 := match android with [] => w | _ => snd (_send_fcm P android w) end) in *.
  destruct ios as [|ti tis] eqn:Ei.
  - exists k, []. cbn [zip_with concat]. rewrite app_nil_r.
    split; [exact Hk|]. split; [exact Hk0|]. split; [exact E1|].
    split; [cbn; lia|]. split; [constructor|]. split; [exact E2|].
    left. reflexivity.
  - destruct (_send_apns_calls P (ti :: tis) w1) as (ks & F & G2 & G5 & G).
    exists k, ks. rewrite G5, G2, E1, E2.
    split; [exact Hk|]. split; [exact Hk0|]. split; [reflexivity|].
    split; [destruct G as [(_ & G & _)|(_ & _ & _ & _ & G & _)]; lia|].
    split; [exact F|]. split; [reflexivity|].
    destruct G as [(_ & G & _)|(Hc & _ & _ & _ & _ & G)];
      [left; exact G | right; split; assumption].
Qed.

End push_send.

(** Without the [BadDeviceToken] class the first failing send ends
    [_send_apns]: one call, no result, and the error of the attribute
    lookup. *)
Example _send_apns_without_class :
  let r := push_notification._send_apns inputs.apns_without_class ["tok-1"; "tok-2"]
             inputs.one_ios_device in
  fst r = mk_response false []
            (Some "module 'aioapns.exceptions' has no attribute 'BadDeviceToken'") /\
  push_notification.apns_calls (snd r)
  = (push_notification.apns_calls inputs.one_ios_device ++ ["tok-1"])%list.
Proof. vm_compute. split; reflexivity. Qed.

Lemma send_notification_true_only_when_pending_witness :
  status (inputs.pending "n1" "alice") = PENDING.
Proof.
  refine (proj1 (send_notification_true_only_when_pending
                   (push_notification.mk_providers (fun _ _ => Return tt)
                      (fun _ _ => Return (fun _ => true)) true)
                   (inputs.pending "n1" "alice") 1%Q inputs.one_ios_device _)).
  vm_compute. reflexivity.
Defined.

Lemma send_notification_raises_when_failed_witness :
  exists msg,
    fst (fst (push_notification.send_notification inputs.apns_rejects
                (set_status (inputs.pending "n1" "alice") FAILED) 1%Q
                inputs.one_ios_device))
    = Raise (ValueError msg).
Proof.
  destruct (send_notification_raises_when_failed inputs.apns_rejects
              (set_status (inputs.pending "n1" "alice") FAILED) 1%Q
              inputs.one_ios_device eq_refl) as (msg & H & _).
  exists msg. exact H.
Defined.

Lemma send_notification_without_devices_witness :
  snd (push_notification.send_notification inputs.apns_rejects
         (inputs.pending "n1" "bob") 1%Q inputs.one_ios_device)
  = inputs.one_ios_device.
Proof.
  exact (proj1 (send_notification_without_devices inputs.apns_rejects
                  (inputs.pending "n1" "bob") 1%Q inputs.one_ios_device eq_refl)).
Defined.


(** ** The template manager *)

Section template_manager.
Import templates inputs.

Lemma ensure_key_lookup (key : string) (m : gmap string value) (k : string) :
  ensure_key key m !! k
  = match m !! k with
    | Some v => Some v
    | None => if String.eqb k key then Some VNone else None
    end.
Proof.
  unfold ensure_key. destruct (String.eqb_spec k key) as [->|Hne].
  - destruct (m !! key) eqn:E; [rewrite E; reflexivity|].
    rewrite lookup_insert_eq. reflexivity.
  - destruct (m !! key) eqn:E.
    + destruct (m !! k); reflexivity.
    + rewrite lookup_insert_ne by congruence. destruct (m !! k); reflexivity.
Qed.

(** What [_sanitize_context] leaves under a key: the value of the context
    when the key does not start with an underscore and the value is not
    callable, and else [None] for the two required keys and nothing for
    any other key. *)
Lemma sanitize_lookup (context : gmap string value) (k : string) :
  _sanitize_context context !! k
  = match context !! k with
    | Some v =>
        if negb (startswith_underscore k) && negb (callable v) then Some v
        else if String.eqb k "user_id" || String.eqb k "timestamp" then Some VNone
             else None
    | None =>
        if String.eqb k "user_id" || String.eqb k "timestamp" then Some VNone else None
    end.
Proof.
  unfold _sanitize_context. rewrite !ensure_key_lookup, map_lookup_filter.
  destruct (context !! k) as [v|]; cbn.
  - destruct (negb (startswith_underscore k) && negb (callable v)) eqn:E.
    + rewrite option_guard_True by reflexivity. reflexivity.
    + rewrite option_guard_False by discriminate. cbn.
      destruct (String.eqb k "user_id"), (String.eqb k "timestamp"); reflexivity.
  - destruct (String.eqb k "user_id"), (String.eqb k "timestamp"); reflexivity.
Qed.

Lemma required_not_underscore (k : string) :
  String.eqb k "user_id" || String.eqb k "timestamp" = true ->
  startswith_underscore k = false.
Proof.
  intros H. apply orb_true_iff in H as [H|H]; apply String.eqb_eq in H; subst k;
    reflexivity.
Qed.

(** X26. The sanitised context holds no key that starts with an
    underscore and no callable value, it always has [user_id] and
    [timestamp], and every other entry of the context is kept as it
    is. *)
Theorem sanitize_context_result (context : gmap string value) (k : string) :
  let s := _sanitize_context context in
  (startswith_underscore k = true -> s !! k = None) /\
  (forall v, s !! k = Some v -> callable v = false) /\
  is_Some (s !! "user_id") /\ is_Some (s !! "timestamp") /\
  (forall v, context !! k = Some v -> startswith_underscore k = false ->
             callable v = false -> s !! k = Some v).
Proof.
  cbn zeta. split; [|split; [|split; [|split]]].
  - intros Hu. rewrite sanitize_lookup.
    assert (Hr : String.eqb k "user_id" || String.eqb k "timestamp" = false).
    { destruct (String.eqb k "user_id" || String.eqb k "timestamp") eqn:E;
        [|reflexivity]. apply required_not_underscore in E. congruence. }
    rewrite Hu, Hr. destruct (context !! k); reflexivity.
  - intros v. rewrite sanitize_lookup.
    destruct (context !! k) as [v0|].
    + destruct (negb (startswith_underscore k) && negb (callable v0)) eqn:E.
      * intros [= <-]. apply andb_true_iff in E as [_ E].
        apply negb_true_iff in E. exact E.
      * destruct (String.eqb k "user_id" || String.eqb k "timestamp");
          [intros [= <-]; reflexivity | discriminate].
    + destruct (String.eqb k "user_id" || String.eqb k "timestamp");
        [intros [= <-]; reflexivity | discriminate].
  - rewrite sanitize_lookup. cbn.
    destruct (context !! "user_id") as [v|]; [destruct (callable v)|]; cbn; eauto.
  - rewrite sanitize_lookup. cbn.
    destruct (context !! "timestamp") as [v|]; [destruct (callable v)|]; cbn; eauto.
  - intros v Hc Hu Hv. rewrite sanitize_lookup, Hc, Hu, Hv. reflexivity.
Qed.

(** X27. Sanitising is idempotent: a context that was sanitised is left
    as it is by a second pass. *)
Theorem sanitize_context_idempotent (context : gmap string value) :
  _sanitize_context (_sanitize_context context) = _sanitize_context context.
Proof.
  apply map_eq. intros k. rewrite (sanitize_lookup (_sanitize_context context)).
  destruct (_sanitize_context context !! k) as [v|] eqn:E.
  - destruct (sanitize_context_result context k) as (Hu & Hc & _).
    rewrite (Hc v E).
    destruct (startswith_underscore k) eqn:Eu; [rewrite (Hu eq_refl) in E; discriminate|].
    reflexivity.
  - rewrite sanitize_lookup in E.
    destruct (context !! k) as [v|].
    + destruct (negb (startswith_underscore k) && negb (callable v)); [discriminate|].
      destruct (String.eqb k "user_id" || String.eqb k "timestamp");
        [discriminate | reflexivity].
    + destruct (String.eqb k "user_id" || String.eqb k "timestamp");
        [discriminate | reflexivity].
Qed.

End template_manager.

Section template_files.
Import templates inputs.

Lemma get_template_path_files (self : NotificationTemplateManager)
    (cache : gmap string template) (ty : NotificationType) (channel : string)
    (locale : option string) :
  get_template_path (mk_manager (_env_undefined self) (template_files self) cache)
    ty channel locale
  = get_template_path self ty channel locale.
Proof. reflexivity. Qed.

(** X28. [get_template_path] answers only with the path of a template file
    that exists, for one of the three channels and one of the supported
    locales: the requested locale when it is supported, and [en] in
    every other case, that is without a locale and for one that is empty
    or not supported. *)
Theorem get_template_path_exists (self : NotificationTemplateManager)
    (ty : NotificationType) (channel : string) (locale : option string) (path : string) :
  get_template_path self ty channel locale = Return path ->
  is_Some (template_files self !! path) /\
  In channel ["email"; "sms"; "push"] /\
  exists l, In l SUPPORTED_LOCALES /\
            path = (l ++ "/" ++ NotificationType_value ty ++ "/" ++ channel ++ ".j2")%string /\
            (forall l', locale = Some l' -> In l' SUPPORTED_LOCALES -> l = l') /\
            ((forall l', locale = Some l' -> ~ In l' SUPPORTED_LOCALES) -> l = "en").
Proof.
  unfold get_template_path.
  destruct (String.eqb channel "email" || String.eqb channel "sms"
            || String.eqb channel "push") eqn:Hch; cbn [negb]; [|discriminate].
  set (l0 := match locale with
             | Some l => if String.eqb l "" then "en" else l
             | None => "en"
             end).
  set (l1 := if existsb (String.eqb l0) SUPPORTED_LOCALES then l0 else "en").
  destruct (template_files self
              !! (l1 ++ "/" ++ NotificationType_value ty ++ "/" ++ channel ++ ".j2")%string)
    as [t|] eqn:Hf; [|discriminate].
  intros [= <-]. split; [rewrite Hf; eauto|]. split.
  { apply orb_true_iff in Hch as [Hch|Hch];
      [apply orb_true_iff in Hch as [Hch|Hch]|];
      apply String.eqb_eq in Hch; subst channel; cbn; tauto. }
  exists l1. split; [|split; [reflexivity|split]].
  - subst l1. destruct (existsb (String.eqb l0) SUPPORTED_LOCALES) eqn:E.
    + apply existsb_exists in E as (x & Hx & Ex). apply String.eqb_eq in Ex.
      subst x. exact Hx.
    + left. reflexivity.
  - intros l' -> Hl'. subst l1 l0.
    assert (Hne : String.eqb l' "" = false)
      by (destruct Hl' as [<-|[<-|[<-|[]]]]; reflexivity).
    rewrite Hne.
    assert (Hex : existsb (String.eqb l') SUPPORTED_LOCALES = true)
      by (destruct Hl' as [<-|[<-|[<-|[]]]]; reflexivity).
    rewrite Hex. reflexivity.
  - intros Hnot. subst l1.
    destruct (existsb (String.eqb l0) SUPPORTED_LOCALES) eqn:E; [|reflexivity].
    apply existsb_exists in E as (x & Hx & Ex). apply String.eqb_eq in Ex. subst x.
    subst l0. destruct locale as [l'|]; [|reflexivity].
    destruct (String.eqb l' ""); [reflexivity|].
    destruct (Hnot l' eq_refl Hx).
Qed.

Lemma get_template_path_exists_witness :
  is_Some (template_files promo_manager !! "en/marketing/email.j2") /\
  In "email" ["email"; "sms"; "push"] /\
  exists l, In l SUPPORTED_LOCALES /\
            "en/marketing/email.j2"
            = (l ++ "/" ++ NotificationType_value MARKETING ++ "/" ++ "email" ++ ".j2")%string /\
            (forall l', Some "de" = Some l' -> In l' SUPPORTED_LOCALES -> l = l') /\
            ((forall l', Some "de" = Some l' -> ~ In l' SUPPORTED_LOCALES) -> l = "en").
Proof.
  exact (get_template_path_exists promo_manager MARKETING "email" (Some "de")
           "en/marketing/email.j2" eq_refl).
Defined.

(** X29. Rendering twice gives the same: a second [render_template] with
    the same arguments returns what the first returned and leaves the
    manager, with the cache the first call filled, as it is. *)
Theorem render_template_twice (self : NotificationTemplateManager)
    (ty : NotificationType) (channel : string) (context : gmap string value)
    (locale : option string) :
  let '(r, self') := render_template self ty channel context locale in
  render_template self' ty channel context locale = (r, self') /\
  template_files self' = template_files self.
Proof.
  unfold render_template at 1.
  destruct (get_template_path self ty channel locale) as [path|e] eqn:Hp.
  - set (key := (path ++ ":" ++ match locale with
                                | Some l => if String.eqb l "" then "default" else l
                                | None => "default"
                                end)%string).
    destruct (_template_cache self !! key) as [t|] eqn:Hc.
    + split; [|reflexivity]. unfold render_template. rewrite Hp. fold key.
      rewrite Hc. reflexivity.
    + destruct (template_files self !! path) as [t|] eqn:Hf.
      * split; [|reflexivity]. unfold render_template.
        rewrite get_template_path_files, Hp. fold key.
        cbn [_template_cache]. rewrite lookup_insert_eq. reflexivity.
      * split; [|reflexivity]. unfold render_template. rewrite Hp. fold key.
        rewrite Hc, Hf. reflexivity.
  - split; [|reflexivity]. unfold render_template. rewrite Hp. reflexivity.
Qed.

(** X30. [secure_truncate] leaves a text of at most [length] code points
    as it is.  A longer text is cut after its first [length] code points
    and gets three dots, [length + 3] code points in all, which is more
    than the text had when it had fewer than [length + 3].  A negative
    [length] is below the length of every text: the text then loses its
    last [-length] code points, or all it has, and gets the three dots,
    the empty text too. *)
Theorem secure_truncate_length (value : text) (length : Z) :
  let n := Z.of_nat (Datatypes.length value) in
  let result := secure_truncate value length in
  ((n <= length)%Z -> result = value) /\
  ((0 <= length < n)%Z ->
   exists kept cut,
     value = (kept ++ cut)%list /\ result = (kept ++ dots)%list /\
     Z.of_nat (Datatypes.length kept) = length /\
     Z.of_nat (Datatypes.length result) = (length + 3)%Z) /\
  ((length < 0)%Z ->
   exists kept cut,
     value = (kept ++ cut)%list /\ result = (kept ++ dots)%list /\
     Z.of_nat (Datatypes.length cut) = Z.min (- length) n /\
     Z.of_nat (Datatypes.length result) = (Z.max (n + length) 0 + 3)%Z).
Proof.
  cbn zeta. unfold secure_truncate, slice_to. split; [|split]; intros H.
  - destruct (length <? Z.of_nat (Datatypes.length value))%Z eqn:E; [|reflexivity].
    apply Z.ltb_lt in E. lia.
  - destruct H as [H0 H1]. apply Z.ltb_lt in H1 as E. rewrite E.
    assert (E0 : (length <? 0)%Z = false) by (apply Z.ltb_ge; exact H0).
    rewrite E0.
    exists (take (Z.to_nat length) value), (drop (Z.to_nat length) value).
    split; [symmetry; apply take_drop|]. split; [reflexivity|].
    rewrite length_app, length_take. cbn [Datatypes.length dots]. lia.
  - assert (E : (length <? Z.of_nat (Datatypes.length value))%Z = true)
      by (apply Z.ltb_lt; lia).
    rewrite E.
    assert (E0 : (length <? 0)%Z = true) by (apply Z.ltb_lt; exact H).
    rewrite E0.
    exists (take (Z.to_nat (Z.of_nat (Datatypes.length value) + length)) value),
           (drop (Z.to_nat (Z.of_nat (Datatypes.length value) + length)) value).
    split; [symmetry; apply take_drop|]. split; [reflexivity|].
    rewrite length_app, length_take, length_drop. cbn [Datatypes.length dots]. lia.
Qed.

Lemma secure_truncate_length_witness :
  let greeting := [1605; 1585; 1581; 1576; 1575; 32; 1576; 1603]%N in
  secure_truncate greeting 8 = greeting /\
  (exists kept cut,
      greeting = (kept ++ cut)%list /\
      secure_truncate greeting 5 = (kept ++ dots)%list /\
      Z.of_nat (Datatypes.length kept) = 5%Z /\
      Z.of_nat (Datatypes.length (secure_truncate greeting 5)) = 8%Z) /\
  (exists kept cut,
      greeting = (kept ++ cut)%list /\
      secure_truncate greeting (-1) = (kept ++ dots)%list /\
      Z.of_nat (Datatypes.length cut) = 1%Z /\
      Z.of_nat (Datatypes.length (secure_truncate greeting (-1))) = 10%Z).
Proof.
  cbn zeta.
  destruct (secure_truncate_length [1605; 1585; 1581; 1576; 1575; 32; 1576; 1603]%N 8)
    as (Hshort & _ & _).
  destruct (secure_truncate_length [1605; 1585; 1581; 1576; 1575; 32; 1576; 1603]%N 5)
    as (_ & Hlong & _).
  destruct (secure_truncate_length [1605; 1585; 1581; 1576; 1575; 32; 1576; 1603]%N (-1))
    as (_ & _ & Hnegative).
  split; [apply Hshort; vm_compute; discriminate|].
  split; [apply Hlong; split; vm_compute; [discriminate | reflexivity]|].
  apply Hnegative. reflexivity.
Defined.

(** [register_filter] never replaces a filter: every name that had a
    filter keeps it, whatever the call answers; the call succeeds exactly
    for an identifier that has no filter yet, and the name then has the
    new filter. *)
Theorem register_filter_no_overwrite (filter : Type) (isidentifier : string -> bool)
    (filters : gmap string filter) (name : string) (filter_func : filter) :
  let '(r, filters') := register_filter filter isidentifier filters name filter_func in
  (forall k g, filters !! k = Some g -> filters' !! k = Some g) /\
  (r = Return tt <-> isidentifier name = true /\ filters !! name = None) /\
  (r = Return tt -> filters' !! name = Some filter_func).
Proof.
  unfold register_filter.
  destruct (isidentifier name); cbn [negb].
  - destruct (filters !! name) as [g0|] eqn:E.
    + repeat split; try tauto; try discriminate. intros [_ H]. discriminate H.
    + repeat split.
      * intros k g Hk. rewrite lookup_insert_ne; [exact Hk | congruence].
      * intros _. apply lookup_insert_eq.
  - repeat split; try tauto; try discriminate. intros [H _]. discriminate H.
Qed.

End template_files.
